(** * upload_to_drive.py: a shallow embedding of the Drive sync script

    The script reads one environment variable, checks one credential file,
    and for each path of a fixed list either creates or updates a like-named
    remote object.  Its only effects are console output, termination with an
    exit code, and calls into the Google client library.  The embedding
    runs the script in a small monad: it reads the [host] (process
    environment and local disk), threads the remote store, may raise, and
    emits the [event]s it causes, in order.  Every call that leaves the
    script is such an event, so a statement about which calls were issued is
    a statement about a list of events. *)

From stdpp Require Import gmap strings list.
From Stdlib Require Import ZArith Ascii String.

Open Scope string_scope.
Open Scope list_scope.
Open Scope Z_scope.

(** ** Python values and exceptions *)

(** The values the script puts into the metadata dictionary of a create
    call: [None], a string, or a list whose items are strings or [None]. *)
Inductive pyval :=
| PNone
| PStr (s : string)
| PList (items : list (option string)).

(** How an f-string renders a value that is a string or [None]. *)
Definition py_format (o : option string) : string :=
  match o with
  | Some s => s
  | None => "None"
  end.

(** Truthiness of a value that is a string or [None]: [None] and the empty
    string are false, every other string is true. *)
Definition truthy (o : option string) : bool :=
  match o with
  | Some s => negb (String.eqb s "")
  | None => false
  end.

(** An exception raised inside the client library (credential parsing,
    opening the file to upload, transport, HTTP status): its class name and
    message. *)
Record external_error := ExternalError {
  err_class : string;
  err_message : string
}.

(** The exceptions that can travel through the script. *)
Inductive exn :=
| SystemExit (code : Z)
| KeyError (key : string)
| LibraryError (e : external_error).

Inductive result (A : Type) :=
| Ok (a : A)
| Raise (e : exn).
Arguments Ok {A} a.
Arguments Raise {A} e.

(** ** Requests, responses and events *)

(** [MediaFileUpload(filepath, mimetype=...)]. *)
Record MediaFileUpload := {
  media_filename : string;
  media_mimetype : string
}.

(** [service.files().list(q=..., fields=...)]. *)
Record list_request := {
  lq_q : string;
  lq_fields : string
}.

(** [service.files().update(fileId=..., body=..., media_body=..., fields=...)].
    [up_fileId] is the Python value passed, a string or [None]; [up_body] is
    [None] when the keyword is not passed. *)
Record update_request := {
  up_fileId : option string;
  up_body : option (gmap string pyval);
  up_media_body : MediaFileUpload;
  up_fields : string
}.

(** [service.files().create(body=..., media_body=..., fields=...)]. *)
Record create_request := {
  cr_body : gmap string pyval;
  cr_media_body : MediaFileUpload;
  cr_fields : string
}.

(** Everything observable from outside the script, in order. *)
Inductive event :=
| Stdout (line : string)
| Traceback (e : exn)
| LoadCredentials (path : string) (scopes : list string)
| BuildService (name version : string)
| FilesList (rq : list_request)
| FilesUpdate (rq : update_request)
| FilesCreate (rq : create_request).

(** The events that reach the remote API. *)
Definition is_remote_call (ev : event) : bool :=
  match ev with
  | FilesList _ | FilesUpdate _ | FilesCreate _ => true
  | _ => false
  end.

Definition is_write_call (ev : event) : bool :=
  match ev with
  | FilesUpdate _ | FilesCreate _ => true
  | _ => false
  end.

(** ** The host and the client library *)

(** What sits at a path of the local disk: a regular file the process may
    read, a regular file it may not read, or a directory. *)
Inductive disk_entry :=
| RegularFile (content : string)
| Unreadable (content : string)
| Directory.

(** What [open(path, 'rb')] raises, if anything: by the entry at the path,
    or for want of one. *)
Definition open_error (entry : disk_entry) : option external_error :=
  match entry with
  | RegularFile _ => None
  | Unreadable _ => Some (ExternalError "PermissionError" "Permission denied")
  | Directory => Some (ExternalError "IsADirectoryError" "Is a directory")
  end.

Definition open_for_reading (disk : gmap string disk_entry) (path : string)
  : option external_error :=
  match disk !! path with
  | Some entry => open_error entry
  | None =>
      Some (ExternalError "FileNotFoundError" "No such file or directory")
  end.

(** What the script reads and never changes: the process environment and the
    local disk (path to entry). *)
Record host := Host {
  h_environ : gmap string string;
  h_disk : gmap string disk_entry
}.

(** The external collaborators: the credential loader, the service builder
    and the three remote operations.  Nothing is assumed about them: each may
    fail with any library exception and may change the remote store. *)
Record Library (remote : Type) := {
  credentials : Type;
  service : Type;
  from_service_account_file :
    string → list string → gmap string disk_entry →
    external_error + credentials;
  build : string → string → credentials → external_error + service;
  files_list :
    service → list_request → remote →
    (external_error + gmap string (list (gmap string string))) * remote;
  files_update :
    service → update_request → gmap string disk_entry → remote →
    (external_error + gmap string string) * remote;
  files_create :
    service → create_request → gmap string disk_entry → remote →
    (external_error + gmap string string) * remote
}.
Arguments credentials {remote}.
Arguments service {remote}.
Arguments from_service_account_file {remote}.
Arguments build {remote}.
Arguments files_list {remote}.
Arguments files_update {remote}.
Arguments files_create {remote}.

(** ** The monad: reader of the host, state of the remote store, writer of
    events, exceptions *)

Definition M (R A : Type) : Type := host → R → list event * result A * R.

Definition ret {R A} (a : A) : M R A := λ _ r, ([], Ok a, r).

Definition raise {R A} (e : exn) : M R A := λ _ r, ([], Raise e, r).

Definition bind {R A B} (m : M R A) (k : A → M R B) : M R B :=
  λ h r,
    match m h r with
    | (evs, Ok a, r1) =>
        let '(evs', b, r2) := k a h r1 in (evs ++ evs', b, r2)
    | (evs, Raise e, r1) => (evs, Raise e, r1)
    end.

Notation "x <- m ;; k" := (bind m (λ x, k))
  (at level 100, m at next level, right associativity).
Notation "m ;; k" := (bind m (λ _, k))
  (at level 100, right associativity).

(** A Python [for] loop whose body returns nothing. *)
Fixpoint for_each {R A} (xs : list A) (body : A → M R unit) : M R unit :=
  match xs with
  | [] => ret tt
  | x :: rest => body x ;; for_each rest body
  end.

(** ** Standard-library functions the script uses *)

(** [s.rfind(c)] counted from offset [i]: the highest index of [c], or -1. *)
Fixpoint rfind_from (i : Z) (c : ascii) (s : string) : Z :=
  match s with
  | EmptyString => -1
  | String a rest =>
      let j := rfind_from (i + 1) c rest in
      if 0 <=? j then j else if Ascii.eqb a c then i else -1
  end.

Definition rfind (c : ascii) (s : string) : Z := rfind_from 0 c s.

(** [s[i:]] for [i >= 0]. *)
Fixpoint string_from (i : nat) (s : string) : string :=
  match i, s with
  | O, _ => s
  | S i', EmptyString => EmptyString
  | S i', String _ rest => string_from i' rest
  end.

(** [os.path.basename] on a POSIX system: [i = p.rfind('/') + 1; p[i:]]. *)
Definition basename (p : string) : string :=
  let i := rfind "/" p + 1 in
  string_from (Z.to_nat i) p.

(** ** Module-level constants *)

Definition CREDENTIALS_FILE : string := "credentials.json".

Definition FILES_TO_UPLOAD : list string :=
  [ "/opt/deploy_dashboard/data/scandata.csv";
    "/opt/deploy_dashboard/data/obj_click_log.csv" ].

Definition SCOPES : list string :=
  [ "https://www.googleapis.com/auth/drive.file" ].

(** [FOLDER_ID = os.environ.get("GOOGLE_DRIVE_FOLDER_ID")]. *)
Definition FOLDER_ID (h : host) : option string :=
  h_environ h !! "GOOGLE_DRIVE_FOLDER_ID".

(** ** The script *)

Section Script.

Context {remote : Type} (lib : Library remote).

Definition print (line : string) : M remote unit :=
  λ _ r, ([Stdout line], Ok tt, r).

Definition sys_exit {A} (code : Z) : M remote A := raise (SystemExit code).

Definition os_path_exists (path : string) : M remote bool :=
  λ h r, ([], Ok (bool_decide (is_Some (h_disk h !! path))), r).

Definition read_FOLDER_ID : M remote (option string) :=
  λ h r, ([], Ok (FOLDER_ID h), r).

Definition lift_error {A} (x : external_error + A) : result A :=
  match x with
  | inl e => Raise (LibraryError e)
  | inr a => Ok a
  end.

Definition call_from_service_account_file (path : string)
    (scopes : list string) : M remote (credentials lib) :=
  λ h r, ([LoadCredentials path scopes],
          lift_error (from_service_account_file lib path scopes (h_disk h)),
          r).

Definition call_build (name version : string) (creds : credentials lib)
  : M remote (service lib) :=
  λ _ r, ([BuildService name version],
          lift_error (build lib name version creds), r).

Definition call_list (svc : service lib) (rq : list_request)
  : M remote (gmap string (list (gmap string string))) :=
  λ _ r, let '(x, r') := files_list lib svc rq r in
         ([FilesList rq], lift_error x, r').

Definition call_update (svc : service lib) (rq : update_request)
  : M remote (gmap string string) :=
  λ h r, let '(x, r') := files_update lib svc rq (h_disk h) r in
         ([FilesUpdate rq], lift_error x, r').

Definition call_create (svc : service lib) (rq : create_request)
  : M remote (gmap string string) :=
  λ h r, let '(x, r') := files_create lib svc rq (h_disk h) r in
         ([FilesCreate rq], lift_error x, r').

(** [MediaFileUpload(filepath, mimetype=...)].  The class is the client
    library's, not the repository's: its constructor opens the file for
    reading, and raises what [open] raises. *)
Definition MediaFileUpload_init (filepath mimetype : string)
  : M remote MediaFileUpload :=
  λ h r,
    match open_for_reading (h_disk h) filepath with
    | None =>
        ([], Ok {| media_filename := filepath; media_mimetype := mimetype |}, r)
    | Some e => ([], Raise (LibraryError e), r)
    end.

Definition authenticate : M remote (service lib) :=
  present <- os_path_exists CREDENTIALS_FILE ;;
  if present then
    creds <- call_from_service_account_file CREDENTIALS_FILE SCOPES ;;
    call_build "drive" "v3" creds
  else
    print ("找不到 " +:+ CREDENTIALS_FILE +:+ "，請確認檔案是否存在。") ;;
    sys_exit 1.

(** The f-string of [find_file_in_folder]. *)
Definition query_of (filename : string) (folder_id : option string) : string :=
  "name = '" +:+ filename +:+ "' and '" +:+ py_format folder_id
  +:+ "' in parents and trashed = false".

Definition find_file_in_folder (svc : service lib) (filename : string)
    (folder_id : option string) : M remote (option string) :=
  let query := query_of filename folder_id in
  results <- call_list svc {| lq_q := query; lq_fields := "files(id, name)" |} ;;
  let files := default [] (results !! "files") in
  match files with
  | first :: _ =>
      match first !! "id" with
      | Some i => ret (Some i)
      | None => raise (KeyError "id")
      end
  | [] => ret None
  end.

Definition upload_file (svc : service lib) (filepath : string)
  : M remote unit :=
  present <- os_path_exists filepath ;;
  if negb present then
    print ("檔案不存在，跳過: " +:+ filepath)
  else
    let filename := basename filepath in
    print ("正在處理: " +:+ filename +:+ "...") ;;
    folder <- read_FOLDER_ID ;;
    file_id <- find_file_in_folder svc filename folder ;;
    media <- MediaFileUpload_init filepath "text/csv" ;;
    if truthy file_id then
      print ("  -> 發現舊檔 (ID: " +:+ py_format file_id +:+ ")，執行更新...") ;;
      call_update svc {| up_fileId := file_id;
                         up_body := None;
                         up_media_body := media;
                         up_fields := "id" |} ;;
      print ("  -> " +:+ filename +:+ " 更新成功！")
    else
      print "  -> 檔案不存在，執行新增..." ;;
      let file_metadata : gmap string pyval :=
        {[ "name" := PStr filename;
           "parents" := PList [folder] ]} in
      call_create svc {| cr_body := file_metadata;
                         cr_media_body := media;
                         cr_fields := "id" |} ;;
      print ("  -> " +:+ filename +:+ " 上傳成功！").

(** The body of [main], with the list the loop walks taken as an argument;
    [main] itself walks the module-level [FILES_TO_UPLOAD]. *)
Definition main_over (files : list string) : M remote unit :=
  folder <- read_FOLDER_ID ;;
  if negb (truthy folder) then
    print "錯誤: 請設定環境變數 GOOGLE_DRIVE_FOLDER_ID" ;;
    sys_exit 1
  else
    print "開始同步資料到 Google Drive..." ;;
    svc <- authenticate ;;
    for_each files (upload_file svc) ;;
    print "所有作業完成。".

Definition main : M remote unit := main_over FILES_TO_UPLOAD.

(** What the interpreter makes of a finished [main]: a normal return exits
    0, [SystemExit(c)] exits [c], any other uncaught exception prints a
    traceback and exits 1. *)
Definition exit_of (x : list event * result unit * remote)
  : list event * Z * remote :=
  match x with
  | (evs, Ok _, r) => (evs, 0, r)
  | (evs, Raise (SystemExit c), r) => (evs, c, r)
  | (evs, Raise e, r) => (evs ++ [Traceback e], 1, r)
  end.

Definition run_over (files : list string) (h : host) (r : remote)
  : list event * Z * remote :=
  exit_of (main_over files h r).

(** [if __name__ == '__main__': main()]. *)
Definition run_script (h : host) (r : remote) : list event * Z * remote :=
  exit_of (main h r).

End Script.

Arguments print {remote} line.
Arguments sys_exit {remote A} code.
Arguments os_path_exists {remote} path.
Arguments read_FOLDER_ID {remote}.
Arguments lift_error {A} x.
Arguments exit_of {remote} x.

(** ** A stand-in for the remote storage system *)

(** Modelled from the spec: the remote storage API is an external
    collaborator and no code of it is in the repository.  The spec names the
    three operations the script consumes: list the objects matching a
    name + parent + not-trashed filter, create an object with metadata and
    content, update an object's content by identifier.  The stand-in keeps
    the objects in a list.  The spec leaves the order of a list response
    open, so that order is a parameter of the list operation. *)
Record remote_object := {
  obj_id : string;
  obj_name : string;
  obj_parents : list string;
  obj_trashed : bool;
  obj_mime : string;
  obj_content : string
}.

(** What an update of content must leave alone. *)
Definition obj_meta (o : remote_object)
  : string * string * list string * bool :=
  (obj_id o, obj_name o, obj_parents o, obj_trashed o).

(** Modelled from the spec: string literals of the list filter.  A literal
    ends at the first quote. *)
Fixpoint read_literal (s : string) : option (string * string) :=
  match s with
  | EmptyString => None
  | String c rest =>
      if Ascii.eqb c "'" then Some (EmptyString, rest)
      else
        match read_literal rest with
        | Some (l, tail) => Some (String c l, tail)
        | None => None
        end
  end.

Fixpoint strip_prefix (p s : string) : option string :=
  match p, s with
  | EmptyString, _ => Some s
  | String _ _, EmptyString => None
  | String a p', String b s' =>
      if Ascii.eqb a b then strip_prefix p' s' else None
  end.

(** Modelled from the spec: the one filter shape the stand-in understands,
    [name = '<literal>' and '<literal>' in parents and trashed = false].
    It yields the name and the folder the filter asks for. *)
Definition parse_query (q : string) : option (string * string) :=
  r1 ← strip_prefix "name = '" q;
  '(name, r2) ← read_literal r1;
  r3 ← strip_prefix " and '" r2;
  '(folder, r4) ← read_literal r3;
  if String.eqb r4 " in parents and trashed = false"
  then Some (name, folder) else None.

(** Modelled from the spec: the name + parent + not-trashed filter. *)
Definition matches (name folder : string) (o : remote_object) : bool :=
  String.eqb (obj_name o) name
  && bool_decide (folder ∈ obj_parents o)
  && negb (obj_trashed o).

Definition file_resource (o : remote_object) : gmap string string :=
  {[ "id" := obj_id o; "name" := obj_name o ]}.

Definition bad_request : external_error :=
  ExternalError "HttpError" "400 Bad Request".

Definition not_found : external_error :=
  ExternalError "HttpError" "404 Not Found".

(** Modelled from the spec: list the objects matching the filter, in the
    order [rank] the remote gives them; a filter the stand-in cannot read is
    a bad request. *)
Definition stub_list_ranked (rank : list remote_object → list remote_object)
    (rq : list_request) (st : list remote_object)
  : (external_error + gmap string (list (gmap string string)))
    * list remote_object :=
  match parse_query (lq_q rq) with
  | Some (name, folder) =>
      (inr {[ "files" :=
                file_resource <$> rank (List.filter (matches name folder) st) ]},
       st)
  | None => (inl bad_request, st)
  end.

(** The list operation of a remote that answers in store order. *)
Definition stub_list : list_request → list remote_object →
    (external_error + gmap string (list (gmap string string)))
    * list remote_object :=
  stub_list_ranked (λ l, l).

Fixpoint repeat_char (n : nat) (c : ascii) : string :=
  match n with
  | O => EmptyString
  | S n' => String c (repeat_char n' c)
  end.

Definition longest_id (st : list remote_object) : nat :=
  foldr (λ o n, Nat.max (String.length (obj_id o)) n) O st.

(** Modelled from the spec: "the remote system assigns a new identifier".
    The stand-in picks one longer than every identifier in the store. *)
Definition fresh_id (st : list remote_object) : string :=
  repeat_char (S (longest_id st)) "x".

(** The parents of a metadata dictionary: absent means none; an item that
    is not a string is refused. *)
Definition parents_of (body : gmap string pyval) : option (list string) :=
  match body !! "parents" with
  | None => Some []
  | Some (PList items) => mapM id items
  | Some _ => None
  end.

(** Modelled from the spec: create an object with metadata and content.
    The content is what the local disk holds at the media's path. *)
Definition stub_create (rq : create_request) (disk : gmap string disk_entry)
    (st : list remote_object)
  : (external_error + gmap string string) * list remote_object :=
  match cr_body rq !! "name", parents_of (cr_body rq),
        disk !! media_filename (cr_media_body rq) with
  | Some (PStr name), Some parents, Some (RegularFile content) =>
      let o := {| obj_id := fresh_id st;
                  obj_name := name;
                  obj_parents := parents;
                  obj_trashed := false;
                  obj_mime := media_mimetype (cr_media_body rq);
                  obj_content := content |} in
      (inr {[ "id" := obj_id o ]}, st ++ [o])
  | _, _, _ => (inl bad_request, st)
  end.

(** A metadata body of an update renames the object when it has a name. *)
Definition renamed (body : option (gmap string pyval)) (old : string)
  : string :=
  match body with
  | Some b => match b !! "name" with Some (PStr n) => n | _ => old end
  | None => old
  end.

Definition has_id (i : string) (o : remote_object) : bool :=
  String.eqb (obj_id o) i.

(** Modelled from the spec: update an object's content by identifier. *)
Definition stub_update (rq : update_request) (disk : gmap string disk_entry)
    (st : list remote_object)
  : (external_error + gmap string string) * list remote_object :=
  match up_fileId rq, disk !! media_filename (up_media_body rq) with
  | Some i, Some (RegularFile content) =>
      if existsb (has_id i) st then
        (inr {[ "id" := i ]},
         (λ o, if has_id i o then
                 {| obj_id := obj_id o;
                    obj_name := renamed (up_body rq) (obj_name o);
                    obj_parents := obj_parents o;
                    obj_trashed := obj_trashed o;
                    obj_mime := media_mimetype (up_media_body rq);
                    obj_content := content |}
               else o) <$> st)
      else (inl not_found, st)
  | _, _ => (inl bad_request, st)
  end.

(** The stand-in as a client library: credentials are the content of the key
    file, the service handle carries nothing. *)
Definition drive_stub_ranked (rank : list remote_object → list remote_object)
  : Library (list remote_object) := {|
  credentials := string;
  service := unit;
  from_service_account_file path _ disk :=
    match disk !! path with
    | Some (RegularFile key) => inr key
    | _ => inl (ExternalError "OSError" path)
    end;
  build _ _ _ := inr tt;
  files_list _ := stub_list_ranked rank;
  files_update _ := stub_update;
  files_create _ := stub_create
|}.

(** The stand-in that answers list calls in store order. *)
Definition drive_stub : Library (list remote_object) :=
  drive_stub_ranked (λ l, l).

(** A test double in the style of the spec's testable properties: a client
    whose list call answers with one fixed response and whose writes always
    succeed, over a store that is the count of writes. *)
Definition canned (response : gmap string (list (gmap string string)))
  : Library nat := {|
  credentials := unit;
  service := unit;
  from_service_account_file _ _ _ := inr tt;
  build _ _ _ := inr tt;
  files_list _ _ n := (inr response, n);
  files_update _ _ _ n := (inr {[ "id" := "updated" ]}, S n);
  files_create _ _ _ n := (inr {[ "id" := "created" ]}, S n)
|}.

(** ** Vocabulary of the statements *)

(** A path that holds a regular file the process may read. *)
Definition openable (h : host) (path : string) : Prop :=
  ∃ content, h_disk h !! path = Some (RegularFile content).

(** Strings without a single quote. *)
Fixpoint plain (s : string) : bool :=
  match s with
  | EmptyString => true
  | String c rest => negb (Ascii.eqb c "'") && plain rest
  end.

(** The identifier of the first object, in store order, that has the name,
    sits in the folder and is not trashed. *)
Definition first_match (name folder : string) (st : list remote_object)
  : option string :=
  obj_id <$> head (List.filter (matches name folder) st).

(** What [find_file_in_folder] makes of a list response. *)
Definition id_of_first (results : gmap string (list (gmap string string)))
  : result (option string) :=
  match default [] (results !! "files") with
  | first :: _ =>
      match first !! "id" with
      | Some i => Ok (Some i)
      | None => Raise (KeyError "id")
      end
  | [] => Ok None
  end.

(** The media object [upload_file] builds for a path. *)
Definition media_of (filepath : string) : MediaFileUpload :=
  {| media_filename := filepath; media_mimetype := "text/csv" |}.

(** The update request and the create request of [upload_file]. *)
Definition update_of (filepath : string) (file_id : option string)
  : update_request :=
  {| up_fileId := file_id;
     up_body := None;
     up_media_body := media_of filepath;
     up_fields := "id" |}.

Definition create_of (filepath : string) (folder : option string)
  : create_request :=
  {| cr_body := {[ "name" := PStr (basename filepath);
                   "parents" := PList [folder] ]};
     cr_media_body := media_of filepath;
     cr_fields := "id" |}.

Definition list_of (filename : string) (folder : option string)
  : list_request :=
  {| lq_q := query_of filename folder; lq_fields := "files(id, name)" |}.

(** The media body of a write call, if the event is a write call. *)
Definition declared_media (ev : event) : option MediaFileUpload :=
  match ev with
  | FilesUpdate rq => Some (up_media_body rq)
  | FilesCreate rq => Some (cr_media_body rq)
  | _ => None
  end.

(** An event declares nothing, or declares its body as ['text/csv']. *)
Definition declares_text_csv (ev : event) : Prop :=
  match declared_media ev with
  | Some m => media_mimetype m = "text/csv"
  | None => True
  end.

(** The console lines of the script. *)
Definition msg_no_folder : string :=
  "錯誤: 請設定環境變數 GOOGLE_DRIVE_FOLDER_ID".
Definition msg_start : string := "開始同步資料到 Google Drive...".
Definition msg_done : string := "所有作業完成。".
Definition msg_no_credentials : string :=
  "找不到 credentials.json，請確認檔案是否存在。".
Definition msg_skip (filepath : string) : string :=
  "檔案不存在，跳過: " +:+ filepath.
Definition msg_processing (filepath : string) : string :=
  "正在處理: " +:+ basename filepath +:+ "...".
Definition msg_found (file_id : option string) : string :=
  "  -> 發現舊檔 (ID: " +:+ py_format file_id +:+ ")，執行更新...".
Definition msg_updated (filepath : string) : string :=
  "  -> " +:+ basename filepath +:+ " 更新成功！".
Definition msg_creating : string := "  -> 檔案不存在，執行新增...".
Definition msg_created (filepath : string) : string :=
  "  -> " +:+ basename filepath +:+ " 上傳成功！".

(** ** Sample hosts and stores *)

(** The end-to-end scenario of the spec: folder [F1], the key file and
    [scandata.csv] on disk, [obj_click_log.csv] missing. *)
Definition host_F1 : host :=
  Host {[ "GOOGLE_DRIVE_FOLDER_ID" := "F1" ]}
       {[ "credentials.json" := RegularFile "{}";
          "/opt/deploy_dashboard/data/scandata.csv" := RegularFile "t,v" ]}.

(** Folder [F1], the key file on disk, and [scandata.csv] a file the
    process may not read. *)
Definition host_unreadable : host :=
  Host {[ "GOOGLE_DRIVE_FOLDER_ID" := "F1" ]}
       {[ "credentials.json" := RegularFile "{}";
          "/opt/deploy_dashboard/data/scandata.csv" := Unreadable "t,v" ]}.

(** No folder identifier in the environment and no key file. *)
Definition host_bare : host := Host ∅ ∅.

(** No folder identifier in the environment. *)
Definition host_unset : host :=
  Host ∅ {[ "credentials.json" := RegularFile "{}" ]}.

(** The folder identifier set, the key file missing. *)
Definition host_no_key : host :=
  Host {[ "GOOGLE_DRIVE_FOLDER_ID" := "F1" ]}
       {[ "/opt/deploy_dashboard/data/scandata.csv" := RegularFile "t,v" ]}.

Definition scandata : string := "/opt/deploy_dashboard/data/scandata.csv".
Definition obj_click_log : string :=
  "/opt/deploy_dashboard/data/obj_click_log.csv".

(** A list response for the test double: one object found. *)
Definition response_found : gmap string (list (gmap string string)) :=
  {[ "files" := [ {[ "id" := "X1"; "name" := "scandata.csv" ]} ] ]}.

(** A folder identifier that breaks the filter string. *)
Definition host_quote : host :=
  Host {[ "GOOGLE_DRIVE_FOLDER_ID" := "it's" ]}
       {[ "credentials.json" := RegularFile "{}";
          "/opt/deploy_dashboard/data/scandata.csv" := RegularFile "t,v";
          "/opt/deploy_dashboard/data/obj_click_log.csv" := RegularFile "c,d" ]}.

(** Sample stores: one object whose folder identifier contains quotes; one
    object whose name contains a quote; and a folder [F1] that holds a
    trashed [scandata.csv], then two live ones, next to a live one in
    another folder. *)
Definition store_ambiguous : list remote_object :=
  [ {| obj_id := "1"; obj_name := "a"; obj_parents := ["b' and 'c"];
       obj_trashed := false; obj_mime := "text/csv"; obj_content := "" |} ].

Definition store_quote : list remote_object :=
  [ {| obj_id := "7"; obj_name := "it's.csv"; obj_parents := ["F1"];
       obj_trashed := false; obj_mime := "text/csv"; obj_content := "" |} ].

Definition store_sample : list remote_object :=
  [ {| obj_id := "other"; obj_name := "scandata.csv"; obj_parents := ["F2"];
       obj_trashed := false; obj_mime := "text/csv"; obj_content := "o" |};
    {| obj_id := "gone"; obj_name := "scandata.csv"; obj_parents := ["F1"];
       obj_trashed := true; obj_mime := "text/csv"; obj_content := "g" |};
    {| obj_id := "first"; obj_name := "scandata.csv"; obj_parents := ["F1"];
       obj_trashed := false; obj_mime := "text/csv"; obj_content := "1" |};
    {| obj_id := "second"; obj_name := "scandata.csv"; obj_parents := ["F1"];
       obj_trashed := false; obj_mime := "text/csv"; obj_content := "2" |} ].

(** ** Notions for the two-run property *)

(** A response order that depends on what the objects hold: the objects
    whose content is [content] come last. *)
Definition holding_last (content : string) (l : list remote_object)
  : list remote_object :=
  List.filter (λ o, negb (String.eqb (obj_content o) content)) l
  ++ List.filter (λ o, String.eqb (obj_content o) content) l.

(** A store in which every object has a non-empty identifier. *)
Definition valid_ids (st : list remote_object) : Prop :=
  Forall (λ o, obj_id o ≠ "") st.

(** The filter, read off the metadata alone. *)
Definition meta_matches (name folder : string)
    (m : string * string * list string * bool) : bool :=
  String.eqb m.1.1.2 name && bool_decide (folder ∈ m.1.2) && negb m.2.

(** [st'] keeps the objects of [st], content apart, and may hold new ones
    after them. *)
Definition extends (st st' : list remote_object) : Prop :=
  ∃ ext, obj_meta <$> st' = (obj_meta <$> st) ++ ext.

(** Some object of the store bears the name in the folder and is not
    trashed. *)
Definition settled (name folder : string) (st : list remote_object) : Prop :=
  ∃ o, o ∈ st ∧ matches name folder o = true.

(** The object a create call of [upload_file] adds to the stand-in. *)
Definition created_object (filepath folder content : string)
    (st : list remote_object) : remote_object :=
  {| obj_id := fresh_id st;
     obj_name := basename filepath;
     obj_parents := [folder];
     obj_trashed := false;
     obj_mime := "text/csv";
     obj_content := content |}.

(** The write call a second run issues for [filepath]: the update of an
    object of [st] that bears the base name in the folder and is not
    trashed. *)
Definition updates_object_of (st : list remote_object) (folder : string)
    (ev : event) (filepath : string) : Prop :=
  ∃ X o,
    ev = FilesUpdate {| up_fileId := Some X;
                        up_body := None;
                        up_media_body := media_of filepath;
                        up_fields := "id" |}
    ∧ X ≠ ""
    ∧ o ∈ st ∧ obj_id o = X
    ∧ obj_name o = basename filepath
    ∧ folder ∈ obj_parents o
    ∧ obj_trashed o = false.

(** ** Vocabulary of the further properties *)

(** Strings without a path separator. *)
Fixpoint no_slash (s : string) : bool :=
  match s with
  | EmptyString => true
  | String c rest => negb (Ascii.eqb c "/") && no_slash rest
  end.

(** [os.path.exists] as a test on the host. *)
Definition on_disk (h : host) (path : string) : bool :=
  bool_decide (is_Some (h_disk h !! path)).

Definition is_list_call (ev : event) : bool :=
  match ev with
  | FilesList _ => true
  | _ => false
  end.

Definition is_auth_call (ev : event) : bool :=
  match ev with
  | LoadCredentials _ _ | BuildService _ _ => true
  | _ => false
  end.

(** The local path a write call uploads, if the event is a write call. *)
Definition written_path (ev : event) : option string :=
  media_filename <$> declared_media ev.

(** The write calls a task over [filepath] may issue: an update of a
    non-empty identifier, or the create for the configured folder. *)
Definition write_of_task (h : host) (filepath : string) (ev : event) : Prop :=
  match ev with
  | FilesUpdate rq => ∃ X, X ≠ "" ∧ rq = update_of filepath (Some X)
  | FilesCreate rq => rq = create_of filepath (FOLDER_ID h)
  | _ => True
  end.

(** A client library whose credential loader rejects every key file, and
    one whose service builder fails. *)
Definition bad_key : external_error :=
  ExternalError "ValueError" "malformed service account key".

Definition rejecting_loader : Library nat := {|
  credentials := unit;
  service := unit;
  from_service_account_file _ _ _ := inl bad_key;
  build _ _ _ := inr tt;
  files_list _ _ n := (inr ∅, n);
  files_update _ _ _ n := (inr ∅, S n);
  files_create _ _ _ n := (inr ∅, S n)
|}.

(** A list response whose first object has no identifier, followed by one
    that has. *)
Definition response_no_id : gmap string (list (gmap string string)) :=
  {[ "files" := [ {[ "name" := "scandata.csv" ]};
                  {[ "id" := "X2"; "name" := "scandata.csv" ]} ] ]}.

(** Both listed files on disk. *)
Definition host_both : host :=
  Host {[ "GOOGLE_DRIVE_FOLDER_ID" := "F1" ]}
       {[ "credentials.json" := RegularFile "{}";
          "/opt/deploy_dashboard/data/scandata.csv" := RegularFile "t,v";
          "/opt/deploy_dashboard/data/obj_click_log.csv" := RegularFile "c,d" ]}.

(** Neither listed file on disk. *)
Definition host_empty : host :=
  Host {[ "GOOGLE_DRIVE_FOLDER_ID" := "F1" ]}
       {[ "credentials.json" := RegularFile "{}" ]}.

(** * Properties *)

(** ** The monad *)

Section Monad.

Context {R : Type}.

Lemma for_each_cons_ok {A} (body : A → M R unit) x rest h r evs r1 :
  body x h r = (evs, Ok tt, r1) →
  for_each (x :: rest) body h r =
    (let '(evs', b, r2) := for_each rest body h r1 in (evs ++ evs', b, r2)).
Proof. intros E. simpl. unfold bind. now rewrite E. Qed.

Lemma for_each_cons_raise {A} (body : A → M R unit) x rest h r evs e r1 :
  body x h r = (evs, Raise e, r1) →
  for_each (x :: rest) body h r = (evs, Raise e, r1).
Proof. intros E. simpl. unfold bind. now rewrite E. Qed.

(** A loop over a concatenation runs the first part, then the second from
    where the first stopped; a raise in the first part ends the loop. *)
Lemma for_each_app {A} (body : A → M R unit) xs ys h r :
  for_each (xs ++ ys) body h r =
    match for_each xs body h r with
    | (evs, Ok _, r1) =>
        let '(evs', b, r2) := for_each ys body h r1 in (evs ++ evs', b, r2)
    | (evs, Raise e, r1) => (evs, Raise e, r1)
    end.
Proof.
  revert r. induction xs as [|x xs IH]; intros r.
  - simpl. now destruct (for_each ys body h r) as [[evs b] r2].
  - simpl. unfold bind.
    destruct (body x h r) as [[evs [[]|e]] r1]; [|done].
    rewrite IH.
    destruct (for_each xs body h r1) as [[evs1 [[]|e1]] r2]; [|done].
    destruct (for_each ys body h r2) as [[evs2 b] r3].
    now rewrite (assoc_L (++)).
Qed.

End Monad.

(** ** The script over any client library *)

Section AnyLibrary.

Context {remote : Type} (lib : Library remote).

Lemma authenticate_missing h r :
  h_disk h !! CREDENTIALS_FILE = None →
  authenticate lib h r = ([Stdout msg_no_credentials], Raise (SystemExit 1), r).
Proof.
  intros E. unfold authenticate, bind, os_path_exists.
  rewrite bool_decide_eq_false_2; [reflexivity|].
  rewrite E. now intros [? ?].
Qed.

Lemma authenticate_present h r :
  is_Some (h_disk h !! CREDENTIALS_FILE) →
  authenticate lib h r =
    match from_service_account_file lib CREDENTIALS_FILE SCOPES (h_disk h) with
    | inl e =>
        ([LoadCredentials CREDENTIALS_FILE SCOPES], Raise (LibraryError e), r)
    | inr creds =>
        ([LoadCredentials CREDENTIALS_FILE SCOPES; BuildService "drive" "v3"],
         lift_error (build lib "drive" "v3" creds), r)
    end.
Proof.
  intros E. unfold authenticate, bind, os_path_exists.
  rewrite bool_decide_eq_true_2 by done.
  unfold call_from_service_account_file, call_build.
  now destruct (from_service_account_file lib _ _ _).
Qed.

Lemma find_file_in_folder_unfold svc filename folder_id h r :
  find_file_in_folder lib svc filename folder_id h r =
    match files_list lib svc (list_of filename folder_id) r with
    | (inl e, r') =>
        ([FilesList (list_of filename folder_id)], Raise (LibraryError e), r')
    | (inr results, r') =>
        ([FilesList (list_of filename folder_id)], id_of_first results, r')
    end.
Proof.
  unfold find_file_in_folder, bind, call_list, list_of, id_of_first.
  destruct (files_list lib svc _ r) as [[e|results] r']; [reflexivity|].
  simpl. destruct (default [] (results !! "files")) as [|first ?]; [done|].
  now destruct (first !! "id").
Qed.

Lemma upload_file_missing svc filepath h r :
  h_disk h !! filepath = None →
  upload_file lib svc filepath h r = ([Stdout (msg_skip filepath)], Ok tt, r).
Proof.
  intros E. unfold upload_file, bind, os_path_exists.
  rewrite bool_decide_eq_false_2; [reflexivity|].
  rewrite E. now intros [? ?].
Qed.

Lemma upload_file_present svc filepath h r :
  is_Some (h_disk h !! filepath) →
  upload_file lib svc filepath h r =
    match find_file_in_folder lib svc (basename filepath) (FOLDER_ID h) h r with
    | (evs, Raise e, r1) => (Stdout (msg_processing filepath) :: evs, Raise e, r1)
    | (evs, Ok file_id, r1) =>
        match open_for_reading (h_disk h) filepath with
        | Some e =>
            (Stdout (msg_processing filepath) :: evs, Raise (LibraryError e), r1)
        | None =>
        if truthy file_id then
          match files_update lib svc (update_of filepath file_id) (h_disk h) r1 with
          | (inl e, r2) =>
              (Stdout (msg_processing filepath) :: evs
                 ++ [Stdout (msg_found file_id);
                     FilesUpdate (update_of filepath file_id)],
               Raise (LibraryError e), r2)
          | (inr _, r2) =>
              (Stdout (msg_processing filepath) :: evs
                 ++ [Stdout (msg_found file_id);
                     FilesUpdate (update_of filepath file_id);
                     Stdout (msg_updated filepath)],
               Ok tt, r2)
          end
        else
          match files_create lib svc (create_of filepath (FOLDER_ID h)) (h_disk h) r1 with
          | (inl e, r2) =>
              (Stdout (msg_processing filepath) :: evs
                 ++ [Stdout msg_creating;
                     FilesCreate (create_of filepath (FOLDER_ID h))],
               Raise (LibraryError e), r2)
          | (inr _, r2) =>
              (Stdout (msg_processing filepath) :: evs
                 ++ [Stdout msg_creating;
                     FilesCreate (create_of filepath (FOLDER_ID h));
                     Stdout (msg_created filepath)],
               Ok tt, r2)
          end
        end
    end.
Proof.
  intros E. unfold upload_file, bind at 1, os_path_exists.
  rewrite bool_decide_eq_true_2 by done. cbn [negb].
  unfold bind, print, read_FOLDER_ID, MediaFileUpload_init. cbn [app].
  destruct (find_file_in_folder lib svc _ _ h r) as [[evs [file_id|e]] r1];
    [|reflexivity].
  destruct (open_for_reading (h_disk h) filepath) as [e|].
  { now rewrite app_nil_r. }
  cbn [app].
  destruct (truthy file_id).
  - unfold call_update, update_of, media_of.
    now destruct (files_update lib svc _ _ r1) as [[e|?] r2].
  - unfold call_create, create_of, media_of.
    now destruct (files_create lib svc _ _ r1) as [[e|?] r2].
Qed.

(** A readable regular file opens without error. *)
Lemma open_for_reading_openable h filepath :
  openable h filepath → open_for_reading (h_disk h) filepath = None.
Proof. intros [content E]. unfold open_for_reading. now rewrite E. Qed.

Lemma openable_is_Some h filepath :
  openable h filepath → is_Some (h_disk h !! filepath).
Proof. intros [content E]. eauto. Qed.

Lemma main_over_no_folder files h r :
  truthy (FOLDER_ID h) = false →
  main_over lib files h r = ([Stdout msg_no_folder], Raise (SystemExit 1), r).
Proof.
  intros E. unfold main_over, bind at 1, read_FOLDER_ID. now rewrite E.
Qed.

Lemma main_over_folder files h r :
  truthy (FOLDER_ID h) = true →
  main_over lib files h r =
    match authenticate lib h r with
    | (evs, Raise e, r1) => (Stdout msg_start :: evs, Raise e, r1)
    | (evs, Ok svc, r1) =>
        match for_each files (upload_file lib svc) h r1 with
        | (evs', Raise e, r2) => (Stdout msg_start :: evs ++ evs', Raise e, r2)
        | (evs', Ok _, r2) =>
            (Stdout msg_start :: evs ++ evs' ++ [Stdout msg_done], Ok tt, r2)
        end
    end.
Proof.
  intros E. unfold main_over, bind at 1, read_FOLDER_ID. rewrite E.
  cbn [negb]. unfold bind, print. cbn [app].
  destruct (authenticate lib h r) as [[evs [svc|e]] r1]; [|reflexivity].
  now destruct (for_each files _ h r1) as [[evs' [[]|e]] r2].
Qed.

End AnyLibrary.

(** ** Pre-flight checks *)

(** C3. When the folder-identifier variable is unset or empty, the run
    prints the one diagnostic line that names the variable and exits with
    code 1; nothing else happens: no credential is loaded, no service is
    built, no list, create or update call is issued, and the remote store is
    untouched. *)
Theorem run_script_without_folder_id {remote} (lib : Library remote) h r :
  h_environ h !! "GOOGLE_DRIVE_FOLDER_ID" = None
  ∨ h_environ h !! "GOOGLE_DRIVE_FOLDER_ID" = Some "" →
  run_script lib h r
  = ([Stdout "錯誤: 請設定環境變數 GOOGLE_DRIVE_FOLDER_ID"], 1, r).
Proof.
  intros E. unfold run_script, main.
  rewrite main_over_no_folder; [reflexivity|].
  unfold FOLDER_ID. now destruct E as [-> | ->].
Qed.

Lemma run_script_without_folder_id_witness :
  (h_environ host_unset !! "GOOGLE_DRIVE_FOLDER_ID" = None
   ∨ h_environ host_unset !! "GOOGLE_DRIVE_FOLDER_ID" = Some "")
  ∧ run_script drive_stub host_unset []
    = ([Stdout "錯誤: 請設定環境變數 GOOGLE_DRIVE_FOLDER_ID"], 1, []).
Proof.
  split.
  - left. reflexivity.
  - apply (run_script_without_folder_id drive_stub host_unset []).
    left. reflexivity.
Defined.

(** C5 (as amended). When the folder identifier is set and the credential
    file is absent, [authenticate] prints the line that names the missing
    path and raises [SystemExit(1)] without trying to load the file, and the
    whole run is the start line, that diagnostic, and exit code 1: no
    credential is parsed, no file task is processed and the remote store is
    untouched. *)
Theorem authenticate_without_credential_file {remote} (lib : Library remote) h r :
  truthy (FOLDER_ID h) = true →
  h_disk h !! CREDENTIALS_FILE = None →
  authenticate lib h r
  = ([Stdout "找不到 credentials.json，請確認檔案是否存在。"],
     Raise (SystemExit 1), r)
  ∧ run_script lib h r
    = ([Stdout msg_start;
        Stdout "找不到 credentials.json，請確認檔案是否存在。"],
       1, r).
Proof.
  intros T E. split; [now apply authenticate_missing|].
  unfold run_script, main.
  rewrite main_over_folder by done. now rewrite authenticate_missing.
Qed.

Lemma authenticate_without_credential_file_witness :
  truthy (FOLDER_ID host_no_key) = true
  ∧ h_disk host_no_key !! CREDENTIALS_FILE = None
  ∧ authenticate drive_stub host_no_key []
    = ([Stdout "找不到 credentials.json，請確認檔案是否存在。"],
       Raise (SystemExit 1), [])
  ∧ run_script drive_stub host_no_key []
    = ([Stdout msg_start;
        Stdout "找不到 credentials.json，請確認檔案是否存在。"],
       1, []).
Proof.
  split; [reflexivity|]. split; [reflexivity|].
  apply (authenticate_without_credential_file drive_stub host_no_key []);
    reflexivity.
Defined.

(** C5, the claim as first stated fails when the folder identifier is not
    set either: the credential file is absent, yet the run ends at the first
    guard of [main] with the folder diagnostic alone; the Authenticator is
    never reached and no line names the missing path. *)
Lemma run_script_without_folder_or_key :
  h_disk host_bare !! CREDENTIALS_FILE = None
  ∧ FOLDER_ID host_bare = None
  ∧ run_script drive_stub host_bare []
    = ([Stdout "錯誤: 請設定環境變數 GOOGLE_DRIVE_FOLDER_ID"], 1, []).
Proof. repeat split; reflexivity. Qed.

(** ** The Locator over any client library *)

(** C10. If the list response has no ['files'] key, or its ['files'] list is
    empty, [find_file_in_folder] returns [None] and raises nothing; the two
    cases give the same result. *)
Theorem find_file_in_folder_total_on_shape {remote} (lib : Library remote)
    svc filename folder_id h r results r' :
  files_list lib svc (list_of filename folder_id) r = (inr results, r') →
  results !! "files" = None ∨ results !! "files" = Some [] →
  find_file_in_folder lib svc filename folder_id h r
  = ([FilesList (list_of filename folder_id)], Ok None, r').
Proof.
  intros E Hshape. rewrite find_file_in_folder_unfold, E.
  unfold id_of_first. now destruct Hshape as [-> | ->].
Qed.

Lemma find_file_in_folder_total_on_shape_witness :
  files_list (canned ∅) tt (list_of "scandata.csv" (Some "F1")) O
  = (inr ∅, O)
  ∧ ((∅ : gmap string (list (gmap string string))) !! "files" = None
     ∨ (∅ : gmap string (list (gmap string string))) !! "files" = Some [])
  ∧ find_file_in_folder (canned ∅) tt "scandata.csv" (Some "F1") host_F1 O
    = ([FilesList (list_of "scandata.csv" (Some "F1"))], Ok None, O).
Proof.
  split; [reflexivity|]. split; [left; reflexivity|].
  apply (find_file_in_folder_total_on_shape
           (canned ∅) tt "scandata.csv" (Some "F1") host_F1 O ∅ O).
  - reflexivity.
  - left. reflexivity.
Defined.

(** ** The Uploader over any client library *)

Section Uploader.

Context {remote : Type} (lib : Library remote).

(** The events of one file task, by case. *)
Lemma upload_file_events svc filepath h r :
  let evs := (upload_file lib svc filepath h r).1.1 in
  let lst := FilesList (list_of (basename filepath) (FOLDER_ID h)) in
  evs = [Stdout (msg_skip filepath)]
  ∨ evs = [Stdout (msg_processing filepath); lst]
  ∨ (∃ file_id tail,
       (tail = [] ∨ tail = [Stdout (msg_updated filepath)])
       ∧ evs = [Stdout (msg_processing filepath); lst;
                Stdout (msg_found file_id);
                FilesUpdate (update_of filepath file_id)] ++ tail)
  ∨ (∃ tail,
       (tail = [] ∨ tail = [Stdout (msg_created filepath)])
       ∧ evs = [Stdout (msg_processing filepath); lst;
                Stdout msg_creating;
                FilesCreate (create_of filepath (FOLDER_ID h))] ++ tail).
Proof.
  intros evs lst. subst evs lst.
  destruct (h_disk h !! filepath) as [content|] eqn:D.
  2: { left. now rewrite upload_file_missing. }
  right. rewrite upload_file_present by eauto.
  rewrite find_file_in_folder_unfold.
  destruct (files_list lib svc _ r) as [[e|results] r1]; [now left|].
  destruct (id_of_first results) as [file_id|e]; [|now left].
  destruct (open_for_reading (h_disk h) filepath) as [e|]; [now left|].
  right. destruct (truthy file_id).
  - left. exists file_id.
    destruct (files_update lib svc _ _ r1) as [[e|?] r2];
      [exists []|exists [Stdout (msg_updated filepath)]]; simpl; auto.
  - right.
    destruct (files_create lib svc _ _ r1) as [[e|?] r2];
      [exists []|exists [Stdout (msg_created filepath)]]; simpl; auto.
Qed.

Lemma for_each_Forall {A} (P : event → Prop) (body : A → M remote unit) xs :
  (∀ x h r, Forall P (body x h r).1.1) →
  ∀ h r, Forall P (for_each xs body h r).1.1.
Proof.
  intros Hbody. induction xs as [|x xs IH]; intros h r; simpl.
  - constructor.
  - unfold bind. specialize (Hbody x h r).
    destruct (body x h r) as [[evs [[]|e]] r1]; simpl in *; [|done].
    specialize (IH h r1).
    destruct (for_each xs body h r1) as [[evs' b] r2]; simpl in *.
    now apply Forall_app.
Qed.

Lemma upload_file_text_csv svc filepath h r :
  Forall declares_text_csv (upload_file lib svc filepath h r).1.1.
Proof.
  destruct (upload_file_events svc filepath h r)
    as [-> | [-> | [(file_id & tail & Ht & ->) | (tail & Ht & ->)]]];
    try (destruct Ht as [-> | ->]); repeat constructor.
Qed.

Lemma authenticate_text_csv h r :
  Forall declares_text_csv (authenticate lib h r).1.1.
Proof.
  destruct (h_disk h !! CREDENTIALS_FILE) as [key|] eqn:D.
  - rewrite authenticate_present by eauto.
    destruct (from_service_account_file lib _ _ _); repeat constructor.
  - rewrite authenticate_missing by done. repeat constructor.
Qed.

End Uploader.

(** C9. Every create call and every update call the script issues declares
    its body with the media object built from the path and the fixed type
    ['text/csv']: for one file task whatever the path and the disk content,
    and so for a whole run. *)
Theorem upload_file_declares_text_csv {remote} (lib : Library remote) :
  (∀ svc filepath h r,
     Forall (λ ev, match declared_media ev with
                   | Some m => m = {| media_filename := filepath;
                                      media_mimetype := "text/csv" |}
                   | None => True
                   end)
            (upload_file lib svc filepath h r).1.1)
  ∧ (∀ h r, Forall declares_text_csv (run_script lib h r).1.1).
Proof.
  split.
  - intros svc filepath h r.
    destruct (upload_file_events lib svc filepath h r)
      as [-> | [-> | [(file_id & tail & Ht & ->) | (tail & Ht & ->)]]];
      try (destruct Ht as [-> | ->]); repeat constructor.
  - intros h r. unfold run_script, main.
    destruct (truthy (FOLDER_ID h)) eqn:T.
    2: { rewrite main_over_no_folder by done. repeat constructor. }
    rewrite main_over_folder by done.
    pose proof (authenticate_text_csv lib h r) as HA.
    destruct (authenticate lib h r) as [[evs [svc|e]] r1]; simpl in HA.
    2: { destruct e; simpl; repeat (constructor || apply Forall_app); auto. }
    pose proof (for_each_Forall declares_text_csv (upload_file lib svc)
                  FILES_TO_UPLOAD (upload_file_text_csv lib svc) h r1) as HF.
    destruct (for_each _ _ h r1) as [[evs' [[]|e]] r2]; simpl in HF.
    + simpl. constructor; [exact I|].
      repeat (apply Forall_app; split); auto. repeat constructor.
    + destruct e; simpl; constructor; try exact I;
        repeat (apply Forall_app; split); auto; repeat constructor.
Qed.

(** C1 (as amended). For a file task whose local file exists and can be
    opened for reading, and whose Locator lookup returned: the task issues
    exactly one write call.  If the Locator returned an identifier [X], a
    non-empty string, that call is an update of [X], with no metadata body,
    and there is no create; if the Locator returned [None], that call is a
    create whose metadata is the base name of the path and the configured
    folder identifier, and there is no update. *)
Theorem upload_file_routes_one_write {remote} (lib : Library remote)
    svc filepath h r evs0 located r1 :
  openable h filepath →
  find_file_in_folder lib svc (basename filepath) (FOLDER_ID h) h r
  = (evs0, Ok located, r1) →
  let writes := List.filter is_write_call (upload_file lib svc filepath h r).1.1 in
  (∀ X, located = Some X → X ≠ "" →
     writes = [FilesUpdate {| up_fileId := Some X;
                              up_body := None;
                              up_media_body := media_of filepath;
                              up_fields := "id" |}])
  ∧ (located = None →
     writes = [FilesCreate
                 {| cr_body := {[ "name" := PStr (basename filepath);
                                  "parents" := PList [FOLDER_ID h] ]};
                    cr_media_body := media_of filepath;
                    cr_fields := "id" |}]).
Proof.
  intros D E writes. subst writes.
  rewrite upload_file_present, E, open_for_reading_openable
    by (done || now apply openable_is_Some).
  assert (evs0 = [FilesList (list_of (basename filepath) (FOLDER_ID h))]) as ->.
  { rewrite find_file_in_folder_unfold in E.
    destruct (files_list lib svc _ r) as [[e|results] r']; congruence. }
  split.
  - intros X -> HX.
    assert (truthy (Some X) = true) as ->.
    { simpl. destruct (String.eqb_spec X ""); [done|reflexivity]. }
    now destruct (files_update lib svc _ _ r1) as [[e|?] r2].
  - intros ->. simpl.
    now destruct (files_create lib svc _ _ r1) as [[e|?] r2].
Qed.

Lemma upload_file_routes_one_write_witness :
  openable host_F1 scandata
  ∧ find_file_in_folder (canned response_found) tt
      (basename scandata) (FOLDER_ID host_F1) host_F1 O
    = ([FilesList (list_of "scandata.csv" (Some "F1"))], Ok (Some "X1"), O)
  ∧ List.filter is_write_call
      (upload_file (canned response_found) tt scandata host_F1 O).1.1
    = [FilesUpdate {| up_fileId := Some "X1";
                      up_body := None;
                      up_media_body := media_of scandata;
                      up_fields := "id" |}].
Proof.
  assert (openable host_F1 scandata) as D by (eexists; reflexivity).
  split; [exact D|]. split; [reflexivity|].
  refine (proj1 (upload_file_routes_one_write (canned response_found) tt
                   scandata host_F1 O _ (Some "X1") O D _) "X1" _ _).
  - reflexivity.
  - reflexivity.
  - discriminate.
Defined.

(** C1, the claim as first stated fails for a local file that exists but
    cannot be opened: [scandata.csv] is on disk without read permission, the
    Locator returns not-found, and the task raises when it builds the media
    object, after the lookup, having issued neither a create nor an
    update. *)
Lemma upload_file_unreadable_file_no_write :
  is_Some (h_disk host_unreadable !! scandata)
  ∧ find_file_in_folder (canned ∅) tt
      (basename scandata) (FOLDER_ID host_unreadable) host_unreadable O
    = ([FilesList (list_of "scandata.csv" (Some "F1"))], Ok None, O)
  ∧ upload_file (canned ∅) tt scandata host_unreadable O
    = ([Stdout (msg_processing scandata);
        FilesList (list_of "scandata.csv" (Some "F1"))],
       Raise (LibraryError
                (ExternalError "PermissionError" "Permission denied")),
       O)
  ∧ List.filter is_write_call
      (upload_file (canned ∅) tt scandata host_unreadable O).1.1 = [].
Proof.
  split; [eexists; reflexivity|]. repeat split; reflexivity.
Qed.

(** ** Skipped tasks and failing calls *)

(** C4. A file task whose path is not on disk prints the skip line and does
    nothing else: no Locator lookup, no create, no update, the remote store
    unchanged, and it returns normally.  The loop goes on with the tasks
    after it.  A run over a list that contains such a path ends with the same
    exit code and the same remote store as the run over the list without it,
    and the two outputs differ by that skip line at most. *)
Theorem upload_file_skips_missing_path {remote} (lib : Library remote)
    svc filepath h r :
  h_disk h !! filepath = None →
  upload_file lib svc filepath h r
  = ([Stdout ("檔案不存在，跳過: " +:+ filepath)], Ok tt, r)
  ∧ (∀ rest,
       for_each (filepath :: rest) (upload_file lib svc) h r
       = (let '(evs, x, r') := for_each rest (upload_file lib svc) h r in
          (Stdout (msg_skip filepath) :: evs, x, r')))
  ∧ (∀ before after,
       let '(evs, code, r') := run_over lib (before ++ filepath :: after) h r in
       let '(evs0, code0, r0) := run_over lib (before ++ after) h r in
       code = code0 ∧ r' = r0
       ∧ (evs = evs0
          ∨ ∃ a b, evs0 = a ++ b ∧ evs = a ++ Stdout (msg_skip filepath) :: b)).
Proof.
  intros D.
  assert (∀ svc' r' rest,
            for_each (filepath :: rest) (upload_file lib svc') h r'
            = (let '(evs, x, r'') := for_each rest (upload_file lib svc') h r' in
               (Stdout (msg_skip filepath) :: evs, x, r''))) as Hloop.
  { intros svc' r' rest.
    rewrite (for_each_cons_ok _ _ _ _ _ _ _ (upload_file_missing lib svc' _ h r' D)).
    now destruct (for_each rest _ h r') as [[evs x] r'']. }
  split; [now apply upload_file_missing|]. split; [now apply Hloop|].
  intros before after. unfold run_over.
  destruct (truthy (FOLDER_ID h)) eqn:T.
  2: { rewrite !main_over_no_folder by done. simpl. auto. }
  rewrite !main_over_folder by done.
  destruct (authenticate lib h r) as [[evsA [svcA|e]] rA].
  2: { destruct e; simpl; auto. }
  rewrite !for_each_app.
  destruct (for_each before _ h rA) as [[evsB [[]|e]] rB].
  2: { destruct e; simpl; auto. }
  rewrite Hloop.
  destruct (for_each after _ h rB) as [[evsC [[]|e]] rC]; simpl.
  - split; [done|]. split; [done|]. right.
    exists (Stdout msg_start :: evsA ++ evsB), (evsC ++ [Stdout msg_done]).
    split; simpl; f_equal; now rewrite <- !(assoc_L (++)).
  - destruct e; simpl; (split; [done|]); (split; [done|]); right.
    + exists (Stdout msg_start :: evsA ++ evsB), evsC.
      split; simpl; f_equal; now rewrite <- ?(assoc_L (++)).
    + exists (Stdout msg_start :: evsA ++ evsB),
             (evsC ++ [Traceback (KeyError key)]).
      split; simpl; f_equal; now rewrite <- !(assoc_L (++)).
    + exists (Stdout msg_start :: evsA ++ evsB),
             (evsC ++ [Traceback (LibraryError e)]).
      split; simpl; f_equal; now rewrite <- !(assoc_L (++)).
Qed.

Lemma upload_file_skips_missing_path_witness :
  h_disk host_F1 !! obj_click_log = None
  ∧ upload_file drive_stub tt obj_click_log host_F1 []
    = ([Stdout ("檔案不存在，跳過: " +:+ obj_click_log)], Ok tt, [])
  ∧ (run_script drive_stub host_F1 []).1.2 = 0
  ∧ List.filter is_remote_call (run_script drive_stub host_F1 []).1.1
    = [FilesList (list_of "scandata.csv" (Some "F1"));
       FilesCreate (create_of scandata (Some "F1"))].
Proof.
  split; [reflexivity|]. split; [|split; reflexivity].
  apply (upload_file_skips_missing_path drive_stub tt obj_click_log host_F1 []).
  reflexivity.
Defined.

(** C6. An error raised by a list, update or create call leaves the task as
    that very error, right after that one call: the call is not repeated and
    nothing of the task follows it (an update or a create is called on a
    file that could be opened).  A task that raises a library error ends
    the run: the tasks after it are not started, the interpreter prints the
    traceback of that error and the exit code is 1. *)
Theorem remote_error_aborts_run {remote} (lib : Library remote) :
  (∀ svc filepath h r e r',
     is_Some (h_disk h !! filepath) →
     files_list lib svc (list_of (basename filepath) (FOLDER_ID h)) r
     = (inl e, r') →
     upload_file lib svc filepath h r
     = ([Stdout (msg_processing filepath);
         FilesList (list_of (basename filepath) (FOLDER_ID h))],
        Raise (LibraryError e), r'))
  ∧ (∀ svc filepath h r evs file_id r1 e r2,
       openable h filepath →
       find_file_in_folder lib svc (basename filepath) (FOLDER_ID h) h r
       = (evs, Ok file_id, r1) →
       truthy file_id = true →
       files_update lib svc (update_of filepath file_id) (h_disk h) r1
       = (inl e, r2) →
       upload_file lib svc filepath h r
       = (Stdout (msg_processing filepath) :: evs
            ++ [Stdout (msg_found file_id);
                FilesUpdate (update_of filepath file_id)],
          Raise (LibraryError e), r2))
  ∧ (∀ svc filepath h r evs file_id r1 e r2,
       openable h filepath →
       find_file_in_folder lib svc (basename filepath) (FOLDER_ID h) h r
       = (evs, Ok file_id, r1) →
       truthy file_id = false →
       files_create lib svc (create_of filepath (FOLDER_ID h)) (h_disk h) r1
       = (inl e, r2) →
       upload_file lib svc filepath h r
       = (Stdout (msg_processing filepath) :: evs
            ++ [Stdout msg_creating;
                FilesCreate (create_of filepath (FOLDER_ID h))],
          Raise (LibraryError e), r2))
  ∧ (∀ h r before filepath after evsA svc rA evsB rB evs e r',
       truthy (FOLDER_ID h) = true →
       authenticate lib h r = (evsA, Ok svc, rA) →
       for_each before (upload_file lib svc) h rA = (evsB, Ok tt, rB) →
       upload_file lib svc filepath h rB = (evs, Raise (LibraryError e), r') →
       run_over lib (before ++ filepath :: after) h r
       = (Stdout msg_start :: evsA ++ evsB ++ evs
            ++ [Traceback (LibraryError e)],
          1, r')).
Proof.
  repeat split.
  - intros svc filepath h r e r' D E.
    rewrite upload_file_present, find_file_in_folder_unfold by done.
    now rewrite E.
  - intros svc filepath h r evs file_id r1 e r2 D E T U.
    rewrite upload_file_present by now apply openable_is_Some.
    now rewrite E, open_for_reading_openable, T, U.
  - intros svc filepath h r evs file_id r1 e r2 D E T U.
    rewrite upload_file_present by now apply openable_is_Some.
    now rewrite E, open_for_reading_openable, T, U.
  - intros h r before filepath after evsA svc rA evsB rB evs e r' T EA EB EU.
    unfold run_over. rewrite main_over_folder, EA, for_each_app, EB by done.
    rewrite (for_each_cons_raise _ _ _ _ _ _ _ _ EU). simpl.
    now rewrite <- !(assoc_L (++)).
Qed.

Lemma remote_error_aborts_run_witness :
  run_over drive_stub ([] ++ scandata :: [obj_click_log]) host_quote []
  = (Stdout msg_start
       :: [LoadCredentials CREDENTIALS_FILE SCOPES; BuildService "drive" "v3"]
       ++ []
       ++ [Stdout (msg_processing scandata);
           FilesList (list_of "scandata.csv" (Some "it's"))]
       ++ [Traceback (LibraryError bad_request)],
     1, []).
Proof.
  apply (proj2 (proj2 (proj2 (remote_error_aborts_run drive_stub)))
           host_quote [] [] scandata [obj_click_log]
           [LoadCredentials CREDENTIALS_FILE SCOPES; BuildService "drive" "v3"]
           tt [] [] []
           [Stdout (msg_processing scandata);
            FilesList (list_of "scandata.csv" (Some "it's"))]
           bad_request []);
    reflexivity.
Defined.

(** ** The stand-in for the remote store *)

Lemma append_cons c s t : String c s +:+ t = String c (s +:+ t).
Proof. reflexivity. Qed.

Lemma strip_prefix_append p s : strip_prefix p (p +:+ s) = Some s.
Proof.
  induction p as [|c p IH]; [now destruct s|].
  rewrite append_cons. simpl. now rewrite Ascii.eqb_refl.
Qed.

Lemma read_literal_plain a q rest :
  plain a = true →
  read_literal (a +:+ String "'" q +:+ rest) = Some (a, q +:+ rest).
Proof.
  induction a as [|c a IH]; intros P; [reflexivity|].
  simpl in P. apply andb_prop in P as [Pq Pa]. apply negb_true_iff in Pq.
  rewrite append_cons. simpl. now rewrite Pq, IH.
Qed.

Lemma parse_query_plain filename folder :
  plain filename = true → plain folder = true →
  parse_query (query_of filename (Some folder)) = Some (filename, folder).
Proof.
  intros Pn Pf. unfold parse_query, query_of, py_format.
  rewrite strip_prefix_append. cbn [mbind option_bind].
  rewrite read_literal_plain by done. cbn [mbind option_bind].
  rewrite strip_prefix_append. cbn [mbind option_bind].
  change "' in parents and trashed = false"
    with (String "'" " in parents and trashed = false" +:+ "").
  rewrite read_literal_plain by done. reflexivity.
Qed.

Lemma matches_spec name folder o :
  matches name folder o = true
  ↔ obj_name o = name ∧ folder ∈ obj_parents o ∧ obj_trashed o = false.
Proof.
  unfold matches.
  rewrite !andb_true_iff, String.eqb_eq, bool_decide_eq_true, negb_true_iff.
  tauto.
Qed.

Lemma head_filter_Some {A} (f : A → bool) l x :
  head (List.filter f l) = Some x →
  ∃ before after,
    l = before ++ x :: after ∧ f x = true ∧ ∀ y, y ∈ before → f y = false.
Proof.
  induction l as [|a l IH]; simpl; [done|].
  destruct (f a) eqn:Fa; simpl.
  - intros [= ->]. exists [], l. repeat split; [done|]. now intros y ?%elem_of_nil.
  - intros (before & after & -> & Fx & Hb)%IH.
    exists (a :: before), after. repeat split; [done|].
    intros y [->|?]%elem_of_cons; auto.
Qed.

Lemma head_filter_None {A} (f : A → bool) l :
  head (List.filter f l) = None → ∀ y, y ∈ l → f y = false.
Proof.
  induction l as [|a l IH]; simpl; [now intros _ y ?%elem_of_nil|].
  destruct (f a) eqn:Fa; simpl; [done|].
  intros H y [->|?]%elem_of_cons; auto.
Qed.

Lemma id_of_first_resources l :
  id_of_first {[ "files" := file_resource <$> l ]} = Ok (obj_id <$> head l).
Proof.
  unfold id_of_first. rewrite lookup_singleton_eq. simpl.
  destruct l as [|o l]; [done|]. simpl.
  unfold file_resource. now rewrite lookup_insert_eq.
Qed.

(** On the stand-in, a lookup with a filter it can read returns the first
    match and leaves the store alone; any other lookup is a bad request. *)
Lemma find_file_in_folder_stub svc filename folder_id h st :
  find_file_in_folder drive_stub svc filename folder_id h st
  = ([FilesList (list_of filename folder_id)],
     match parse_query (query_of filename folder_id) with
     | Some (name, folder) => Ok (first_match name folder st)
     | None => Raise (LibraryError bad_request)
     end,
     st).
Proof.
  rewrite find_file_in_folder_unfold. simpl.
  unfold stub_list, stub_list_ranked. simpl.
  destruct (parse_query _) as [[name folder]|]; [|done].
  now rewrite id_of_first_resources.
Qed.

(** C2 (as amended). For a file name and a folder identifier that contain
    no single quote, the Locator issues one list call and returns, without
    raising: the identifier of the first object, in the order of the store,
    whose name equals the file name exactly, whose parents include exactly
    the folder and which is not trashed; or [None] when no object of the
    store is such.  So an object of that name in another folder, or a
    trashed one, is never returned. *)
Theorem find_file_in_folder_first_match svc filename folder h st :
  plain filename = true → plain folder = true →
  ∃ found,
    find_file_in_folder drive_stub svc filename (Some folder) h st
    = ([FilesList (list_of filename (Some folder))], Ok found, st)
    ∧ match found with
      | Some i =>
          ∃ before o after,
            st = before ++ o :: after ∧ obj_id o = i
            ∧ obj_name o = filename ∧ folder ∈ obj_parents o
            ∧ obj_trashed o = false
            ∧ ∀ o', o' ∈ before →
                ¬ (obj_name o' = filename ∧ folder ∈ obj_parents o'
                   ∧ obj_trashed o' = false)
      | None =>
          ∀ o, o ∈ st →
            ¬ (obj_name o = filename ∧ folder ∈ obj_parents o
               ∧ obj_trashed o = false)
      end.
Proof.
  intros Pn Pf. exists (first_match filename folder st). split.
  - now rewrite find_file_in_folder_stub, parse_query_plain.
  - unfold first_match.
    destruct (head (List.filter (matches filename folder) st)) as [o|] eqn:Hd;
      simpl.
    + apply head_filter_Some in Hd as (before & after & -> & Mo & Hb).
      apply matches_spec in Mo as (? & ? & ?).
      exists before, o, after. repeat split; try done.
      intros o' Ho' Hm%matches_spec. specialize (Hb o' Ho'). congruence.
    + intros o Ho Hm%matches_spec.
      pose proof (head_filter_None _ _ Hd o Ho). congruence.
Qed.

Lemma find_file_in_folder_first_match_witness :
  plain "scandata.csv" = true ∧ plain "F1" = true
  ∧ find_file_in_folder drive_stub tt "scandata.csv" (Some "F1")
      host_F1 store_sample
    = ([FilesList (list_of "scandata.csv" (Some "F1"))], Ok (Some "first"),
       store_sample)
  ∧ ∃ found,
      find_file_in_folder drive_stub tt "scandata.csv" (Some "F1")
        host_F1 store_sample
      = ([FilesList (list_of "scandata.csv" (Some "F1"))], Ok found,
         store_sample)
      ∧ match found with
        | Some i =>
            ∃ before o after,
              store_sample = before ++ o :: after ∧ obj_id o = i
              ∧ obj_name o = "scandata.csv" ∧ "F1" ∈ obj_parents o
              ∧ obj_trashed o = false
              ∧ ∀ o', o' ∈ before →
                  ¬ (obj_name o' = "scandata.csv" ∧ "F1" ∈ obj_parents o'
                     ∧ obj_trashed o' = false)
        | None =>
            ∀ o, o ∈ store_sample →
              ¬ (obj_name o = "scandata.csv" ∧ "F1" ∈ obj_parents o
                 ∧ obj_trashed o = false)
        end.
Proof.
  split; [reflexivity|]. split; [reflexivity|]. split; [reflexivity|].
  apply (find_file_in_folder_first_match tt "scandata.csv" "F1"
           host_F1 store_sample); reflexivity.
Defined.

(** C2, the claim as first stated fails for names and folder identifiers
    that contain a quote.  On the stand-in, the object named [it's.csv] sits
    live in folder [F1], yet looking it up there raises instead of returning
    its identifier.  And whatever the remote does with the filter string, no
    client library makes the Locator exact for every name and folder: the
    name [a] in folder [b' and 'c] and the name [a' and 'b] in folder [c]
    give the same filter string, while a store can hold a match for the
    first and none for the second. *)
Lemma find_file_in_folder_filter_not_exact :
  (first_match "it's.csv" "F1" store_quote = Some "7"
   ∧ find_file_in_folder drive_stub tt "it's.csv" (Some "F1") host_F1 store_quote
     = ([FilesList (list_of "it's.csv" (Some "F1"))],
        Raise (LibraryError bad_request), store_quote))
  ∧ ¬ ∃ (lib : Library (list remote_object)) (svc : service lib),
        ∀ filename folder h st,
          (find_file_in_folder lib svc filename (Some folder) h st).1.2
          = Ok (first_match filename folder st).
Proof.
  split; [split; reflexivity|].
  intros (lib & svc & H).
  pose proof (H "a" "b' and 'c" host_F1 store_ambiguous) as H1.
  pose proof (H "a' and 'b" "c" host_F1 store_ambiguous) as H2.
  rewrite find_file_in_folder_unfold in H1, H2.
  change (list_of "a' and 'b" (Some "c"))
    with (list_of "a" (Some "b' and 'c")) in H2.
  destruct (files_list lib svc _ store_ambiguous) as [[e|results] st'];
    simpl in H1, H2; [discriminate|].
  rewrite H1 in H2. discriminate.
Qed.

Lemma stub_update_frame rq disk st i :
  up_fileId rq = Some i → up_body rq = None →
  obj_meta <$> (stub_update rq disk st).2 = obj_meta <$> st
  ∧ ∀ (k : nat) o, st !! k = Some o → obj_id o ≠ i →
      (stub_update rq disk st).2 !! k = Some o.
Proof.
  intros Ei Eb. unfold stub_update. rewrite Ei, Eb.
  destruct (disk !! _) as [[content|?|]|]; try done.
  destruct (existsb (has_id i) st); [|done]. simpl. split.
  - rewrite <- list_fmap_compose. apply list_fmap_ext. intros k o _. simpl.
    now destruct (has_id i o).
  - intros k o Hk Hne. rewrite list_lookup_fmap, Hk. simpl.
    unfold has_id. now destruct (String.eqb_spec (obj_id o) i).
Qed.

(** C8. A file task that takes the update branch (the file could be opened
    and the located identifier is non-empty) issues one write call, an
    update that targets the located identifier and carries no metadata body;
    on the stand-in that call leaves the identifier, name, parents and
    trashed flag of every object as they were, and leaves every object with
    another identifier untouched. *)
Theorem update_branch_changes_content_only svc filepath h st X :
  openable h filepath →
  (find_file_in_folder drive_stub svc (basename filepath) (FOLDER_ID h) h st).1.2
  = Ok (Some X) →
  X ≠ "" →
  let '(evs, _, st') := upload_file drive_stub svc filepath h st in
  List.filter is_write_call evs
  = [FilesUpdate {| up_fileId := Some X;
                    up_body := None;
                    up_media_body := media_of filepath;
                    up_fields := "id" |}]
  ∧ obj_meta <$> st' = obj_meta <$> st
  ∧ ∀ (k : nat) o, st !! k = Some o → obj_id o ≠ X → st' !! k = Some o.
Proof.
  intros D E HX. rewrite upload_file_present by now apply openable_is_Some.
  rewrite find_file_in_folder_stub in E |- *. simpl in E. rewrite E.
  rewrite open_for_reading_openable by done.
  assert (truthy (Some X) = true) as ->.
  { simpl. destruct (String.eqb_spec X ""); [done|reflexivity]. }
  pose proof (stub_update_frame (update_of filepath (Some X)) (h_disk h) st X
                eq_refl eq_refl) as [Hm Hk].
  change (files_update drive_stub svc) with stub_update.
  destruct (stub_update _ _ st) as [[e|?] st']; simpl in Hm, Hk; auto.
Qed.

Lemma update_branch_changes_content_only_witness :
  openable host_F1 scandata
  ∧ (find_file_in_folder drive_stub tt (basename scandata) (FOLDER_ID host_F1)
       host_F1 store_sample).1.2 = Ok (Some "first")
  ∧ "first" ≠ ""
  ∧ let '(evs, _, st') := upload_file drive_stub tt scandata host_F1 store_sample in
    List.filter is_write_call evs
    = [FilesUpdate {| up_fileId := Some "first";
                      up_body := None;
                      up_media_body := media_of scandata;
                      up_fields := "id" |}]
    ∧ obj_meta <$> st' = obj_meta <$> store_sample
    ∧ ∀ (k : nat) o, store_sample !! k = Some o → obj_id o ≠ "first" →
        st' !! k = Some o.
Proof.
  assert (openable host_F1 scandata) as D by (eexists; reflexivity).
  split; [exact D|]. split; [reflexivity|]. split; [discriminate|].
  apply (update_branch_changes_content_only tt scandata host_F1 store_sample
           "first" D); [reflexivity|discriminate].
Defined.

(** * Further properties of the script *)

(** ** [os.path.basename] *)

Lemma rfind_from_no_slash i s :
  no_slash s = true → rfind_from i "/" s = -1.
Proof.
  revert i. induction s as [|c s IH]; intros i P; [reflexivity|].
  simpl in P. apply andb_prop in P as [Pc Ps]. apply negb_true_iff in Pc.
  simpl. now rewrite (IH _ Ps), Pc.
Qed.

Lemma rfind_from_last_slash i d n :
  0 <= i → no_slash n = true →
  rfind_from i "/" (d +:+ String "/" n) = i + Z.of_nat (String.length d).
Proof.
  revert i. induction d as [|c d IH]; intros i Hi P.
  - change (rfind_from i "/" (String "/" n) = i + 0).
    simpl. rewrite (rfind_from_no_slash _ _ P). simpl. lia.
  - rewrite append_cons.
    change (rfind_from i "/" (String c ?s))
      with (let j := rfind_from (i + 1) "/" s in
            if 0 <=? j then j else if Ascii.eqb c "/" then i else -1).
    rewrite IH by (lia || done). cbv zeta.
    rewrite (proj2 (Z.leb_le _ _)) by lia.
    change (String.length (String c d)) with (S (String.length d)). lia.
Qed.

Lemma last_slash_split p :
  no_slash p = true
  ∨ ∃ d n, p = d +:+ String "/" n ∧ no_slash n = true.
Proof.
  induction p as [|c p IH]; [now left|].
  destruct IH as [P | (d & n & -> & P)].
  - destruct (Ascii.eqb_spec c "/") as [-> | Hc].
    + right. exists "", p. done.
    + left. simpl. rewrite P. now destruct (Ascii.eqb_spec c "/").
  - right. exists (String c d), n. done.
Qed.

Lemma string_from_past_slash dir name :
  string_from (S (String.length dir)) (dir +:+ String "/" name) = name.
Proof.
  induction dir as [|c dir IH]; [reflexivity|]. now rewrite append_cons.
Qed.

(** X1. The base name of [dir/name], for a [name] without a slash, is
    [name], whatever [dir] is: so a path that ends in a slash has the empty
    base name, and a leading directory never reaches the remote name. *)
Theorem basename_of_joined dir name :
  no_slash name = true →
  basename (dir +:+ String "/" name) = name.
Proof.
  intros P. unfold basename, rfind.
  rewrite rfind_from_last_slash by (lia || done).
  replace (Z.to_nat (0 + Z.of_nat (String.length dir) + 1))
    with (S (String.length dir)) by lia.
  apply string_from_past_slash.
Qed.

Lemma basename_of_joined_witness :
  no_slash "scandata.csv" = true
  ∧ basename ("/opt/deploy_dashboard/data" +:+ String "/" "scandata.csv")
    = "scandata.csv".
Proof.
  split; [reflexivity|].
  apply (basename_of_joined "/opt/deploy_dashboard/data" "scandata.csv").
  reflexivity.
Defined.

(** X2. For every path: the base name contains no slash; it is the path
    itself when the path contains none; otherwise the path is some directory
    part, a slash, and the base name. *)
Theorem basename_is_last_component p :
  no_slash (basename p) = true
  ∧ (if no_slash p then basename p = p
     else ∃ dir, p = dir +:+ String "/" (basename p)).
Proof.
  destruct (last_slash_split p) as [P | (d & n & -> & P)].
  - assert (basename p = p) as E.
    { unfold basename, rfind. now rewrite rfind_from_no_slash. }
    rewrite E, P. done.
  - assert (basename (d +:+ String "/" n) = n) as ->.
    { unfold basename, rfind.
      rewrite rfind_from_last_slash by (lia || done).
      replace (Z.to_nat (0 + Z.of_nat (String.length d) + 1))
        with (S (String.length d)) by lia.
      apply string_from_past_slash. }
    split; [done|].
    assert (no_slash (d +:+ String "/" n) = false) as ->.
    { clear P. induction d as [|c d IH]; [reflexivity|].
      rewrite append_cons. simpl. rewrite IH. apply andb_false_r. }
    now exists d.
Qed.

(** ** The filter string *)

(** X3. On names and folder identifiers without a single quote the filter
    string of [find_file_in_folder] is injective: two lookups send the same
    filter only when they ask for the same name in the same folder. *)
Theorem query_of_injective_on_plain name1 folder1 name2 folder2 :
  plain name1 = true → plain folder1 = true →
  plain name2 = true → plain folder2 = true →
  query_of name1 (Some folder1) = query_of name2 (Some folder2) →
  name1 = name2 ∧ folder1 = folder2.
Proof.
  intros P1 Q1 P2 Q2 E. apply (f_equal parse_query) in E.
  rewrite !parse_query_plain in E by done. now injection E.
Qed.

Lemma query_of_injective_on_plain_witness :
  plain "scandata.csv" = true ∧ plain "F1" = true
  ∧ (query_of "scandata.csv" (Some "F1") = query_of "scandata.csv" (Some "F1") →
     "scandata.csv" = "scandata.csv" ∧ "F1" = "F1").
Proof.
  split; [reflexivity|]. split; [reflexivity|].
  apply (query_of_injective_on_plain "scandata.csv" "F1" "scandata.csv" "F1");
    reflexivity.
Defined.

(** ** What a task and the Authenticator can emit and raise *)

Section Shapes.

Context {remote : Type} (lib : Library remote).

(** The three event lists of [authenticate]. *)
Lemma authenticate_events h r :
  let '(evs, x, r') := authenticate lib h r in
  r' = r
  ∧ ((evs = [Stdout msg_no_credentials] ∧ x = Raise (SystemExit 1))
     ∨ (evs = [LoadCredentials CREDENTIALS_FILE SCOPES]
        ∧ ∃ e, x = Raise (LibraryError e))
     ∨ (evs = [LoadCredentials CREDENTIALS_FILE SCOPES;
               BuildService "drive" "v3"]
        ∧ ((∃ e, x = Raise (LibraryError e)) ∨ ∃ svc, x = Ok svc))).
Proof.
  destruct (h_disk h !! CREDENTIALS_FILE) as [key|] eqn:D.
  - rewrite authenticate_present by eauto.
    destruct (from_service_account_file lib _ _ _) as [e|creds].
    + split; [done|]. right. left. eauto.
    + split; [done|]. right. right. split; [done|].
      destruct (build lib _ _ creds) as [e|svc]; simpl; eauto.
  - rewrite authenticate_missing by done. split; [done|]. now left.
Qed.

(** A task raises nothing but a library error or the [KeyError] of a list
    response without identifier. *)
Lemma upload_file_raises svc filepath h r evs e r' :
  upload_file lib svc filepath h r = (evs, Raise e, r') →
  e = KeyError "id" ∨ ∃ x, e = LibraryError x.
Proof.
  destruct (h_disk h !! filepath) as [content|] eqn:D.
  2: { now rewrite upload_file_missing. }
  rewrite upload_file_present, find_file_in_folder_unfold by eauto.
  destruct (files_list lib svc _ r) as [[x|results] r1].
  { intros [= _ <- _]. eauto. }
  destruct (id_of_first results) as [file_id|e0] eqn:EI.
  2: { intros [= _ <- _]. left. unfold id_of_first in EI.
       destruct (default [] (results !! "files")) as [|first rest]; [done|].
       destruct (first !! "id"); congruence. }
  destruct (open_for_reading (h_disk h) filepath) as [x|].
  { intros [= _ <- _]. eauto. }
  destruct (truthy file_id).
  - destruct (files_update lib svc _ _ r1) as [[x|?] r2];
      intros [= _ <- _]; eauto.
  - destruct (files_create lib svc _ _ r1) as [[x|?] r2];
      intros [= _ <- _]; eauto.
Qed.

Lemma for_each_raises {A} (P : exn → Prop) (body : A → M remote unit) xs :
  (∀ x h r evs e r', body x h r = (evs, Raise e, r') → P e) →
  ∀ h r evs e r', for_each xs body h r = (evs, Raise e, r') → P e.
Proof.
  intros Hbody. induction xs as [|x xs IH]; intros h r evs e r'; simpl.
  - discriminate.
  - unfold bind. destruct (body x h r) as [[evs1 [[]|e1]] r1] eqn:E1.
    + destruct (for_each xs body h r1) as [[evs2 [[]|e2]] r2] eqn:E2;
        intros [= _ <- _]. by eapply IH.
    + intros [= _ <- _]. by eapply Hbody.
Qed.

(** The write calls of a task: only for a path on disk, and only an update
    of a non-empty identifier or the create for the configured folder. *)
Lemma upload_file_writes svc filepath h r :
  Forall (λ ev, is_write_call ev = true →
                is_Some (h_disk h !! filepath) ∧ write_of_task h filepath ev)
         (upload_file lib svc filepath h r).1.1.
Proof.
  destruct (h_disk h !! filepath) as [content|] eqn:D.
  2: { rewrite upload_file_missing by done. repeat constructor. discriminate. }
  rewrite upload_file_present, find_file_in_folder_unfold by eauto.
  destruct (files_list lib svc _ r) as [[x|results] r1].
  { repeat constructor; discriminate. }
  destruct (id_of_first results) as [file_id|e].
  2: { repeat constructor; discriminate. }
  destruct (open_for_reading (h_disk h) filepath) as [e|].
  { repeat constructor; discriminate. }
  destruct (truthy file_id) eqn:T.
  - assert (∃ X, X ≠ "" ∧ file_id = Some X) as (X & HX & ->).
    { destruct file_id as [X|]; [|done]. exists X. split; [|done].
      intros ->. discriminate. }
    destruct (files_update lib svc _ _ r1) as [[x|?] r2]; simpl;
      repeat (match goal with |- Forall _ _ => constructor end);
      try discriminate; intros _; (split; [by eexists|]); simpl; eauto.
  - destruct (files_create lib svc _ _ r1) as [[x|?] r2]; simpl;
      repeat (match goal with |- Forall _ _ => constructor end);
      try discriminate; intros _; (split; [by eexists|]); simpl; eauto.
Qed.

(** A loop emits what its bodies emit. *)
Lemma for_each_Forall_elem {A} (P : A → event → Prop)
    (body : A → M remote unit) xs h :
  (∀ x r, Forall (P x) (body x h r).1.1) →
  ∀ r, Forall (λ ev, ∃ x, x ∈ xs ∧ P x ev) (for_each xs body h r).1.1.
Proof.
  intros Hbody. induction xs as [|x xs IH]; intros r; simpl.
  - constructor.
  - unfold bind. specialize (Hbody x r).
    destruct (body x h r) as [[evs [[]|e]] r1]; simpl in *.
    + specialize (IH r1).
      destruct (for_each xs body h r1) as [[evs' b] r2]; simpl in *.
      apply Forall_app. split.
      * eapply Forall_impl; [exact Hbody|]. intros ev ?. exists x.
        split; [left|done].
      * eapply Forall_impl; [exact IH|]. intros ev (y & ? & ?). exists y.
        split; [by right|done].
    + eapply Forall_impl; [exact Hbody|]. intros ev ?. exists x.
      split; [left|done].
Qed.

(** The events of a whole run: nothing, or the start line, the events of
    the Authenticator, the events of the loop, and one closing event. *)
Lemma run_over_events files h r :
  let '(evs, code, r') := run_over lib files h r in
  (truthy (FOLDER_ID h) = false
   ∧ evs = [Stdout msg_no_folder] ∧ code = 1 ∧ r' = r)
  ∨ (truthy (FOLDER_ID h) = true
     ∧ ∃ evsA xA,
         authenticate lib h r = (evsA, xA, r)
         ∧ ((∃ e, xA = Raise e ∧ code = 1 ∧ r' = r
                  ∧ (evs = Stdout msg_start :: evsA
                     ∨ evs = Stdout msg_start :: evsA ++ [Traceback e]))
            ∨ ∃ svc evsL xL,
                xA = Ok svc
                ∧ for_each files (upload_file lib svc) h r = (evsL, xL, r')
                ∧ ((xL = Ok tt ∧ code = 0
                    ∧ evs = Stdout msg_start :: evsA ++ evsL ++ [Stdout msg_done])
                   ∨ (∃ e, xL = Raise e ∧ code = 1
                           ∧ evs = Stdout msg_start :: evsA ++ evsL
                                     ++ [Traceback e])))).
Proof.
  unfold run_over. destruct (truthy (FOLDER_ID h)) eqn:T.
  2: { rewrite main_over_no_folder by done. simpl. left. done. }
  rewrite main_over_folder by done.
  pose proof (authenticate_events h r) as HA.
  destruct (authenticate lib h r) as [[evsA xA] rA].
  destruct HA as [-> HA]. destruct xA as [svc|e].
  - destruct (for_each files _ h r) as [[evsL [[]|e]] rL] eqn:EL.
    + simpl. right. split; [done|]. exists evsA, (Ok svc). split; [done|].
      right. exists svc, evsL, (Ok tt). split; [done|]. split; [done|].
      left. done.
    + pose proof (for_each_raises
                    (λ e, e = KeyError "id" ∨ ∃ x, e = LibraryError x)
                    (upload_file lib svc) files
                    (upload_file_raises svc) h r evsL e rL EL) as He.
      destruct He as [-> | [x ->]]; simpl; right; (split; [done|]);
        exists evsA, (Ok svc); (split; [done|]); right;
        eexists svc, evsL, (Raise _); (split; [done|]); (split; [done|]);
        right; eexists; (split; [done|]); (split; [done|]);
        now rewrite <- (assoc_L (++)).
  - destruct HA as [[_ [= ->]] | [[_ [x [= ->]]] | [_ [[x [= ->]] | [? ?]]]]];
      try done; simpl; right; (split; [done|]); eexists evsA, (Raise _);
      (split; [done|]); left; eexists; repeat split; auto.
Qed.

End Shapes.

(** ** Whole runs over any client library *)

Section Runs.

Context {remote : Type} (lib : Library remote).

Lemma last_closing (a : event) l1 l2 x :
  last (a :: l1 ++ l2 ++ [x]) = Some x.
Proof.
  change (a :: l1 ++ l2 ++ [x]) with ((a :: l1) ++ l2 ++ [x]).
  now rewrite (assoc_L (++)), last_snoc.
Qed.

(** A predicate that holds of everything but write calls holds of a run's
    events as soon as it holds of the events of its loop. *)
Lemma run_over_Forall (P : event → Prop) files h r :
  (∀ ev, is_write_call ev = false → P ev) →
  (∀ svc, Forall P (for_each files (upload_file lib svc) h r).1.1) →
  Forall P (run_over lib files h r).1.1.
Proof.
  intros Hother Hloop. pose proof (run_over_events lib files h r) as H.
  destruct (run_over lib files h r) as [[evs code] r']. simpl.
  destruct H as [(_ & -> & _) | (_ & evsA & xA & EA & H)].
  { repeat constructor. now apply Hother. }
  assert (Forall P evsA) as HA.
  { pose proof (authenticate_events lib h r) as HE. rewrite EA in HE.
    destruct HE as [_ [[-> _] | [[-> _] | [-> _]]]];
      repeat constructor; now apply Hother. }
  destruct H as [(e & _ & _ & _ & [-> | ->])
                | (svc & evsL & xL & _ & EL & H)].
  - constructor; [now apply Hother|done].
  - constructor; [now apply Hother|]. apply Forall_app. split; [done|].
    repeat constructor. now apply Hother.
  - specialize (Hloop svc). rewrite EL in Hloop. simpl in Hloop.
    destruct H as [(_ & _ & ->) | (e & _ & _ & ->)];
      (constructor; [now apply Hother|]);
      repeat (apply Forall_app; split); try done;
      repeat constructor; now apply Hother.
Qed.

(** A filter that keeps remote calls only sees, in a run, the events of the
    loop. *)
Lemma run_over_filter (f : event → bool) files h r :
  (∀ ev, is_remote_call ev = false → f ev = false) →
  List.filter f (run_over lib files h r).1.1 = []
  ∨ ∃ svc, List.filter f (run_over lib files h r).1.1
           = List.filter f (for_each files (upload_file lib svc) h r).1.1.
Proof.
  intros Hf. pose proof (run_over_events lib files h r) as H.
  destruct (run_over lib files h r) as [[evs code] r']. simpl.
  destruct H as [(_ & -> & _) | (_ & evsA & xA & EA & H)].
  { left. simpl. now rewrite Hf. }
  assert (List.filter f evsA = []) as HA.
  { pose proof (authenticate_events lib h r) as HE. rewrite EA in HE.
    destruct HE as [_ [[-> _] | [[-> _] | [-> _]]]]; simpl;
      now rewrite ?Hf. }
  destruct H as [(e & _ & _ & _ & [-> | ->])
                | (svc & evsL & xL & _ & EL & H)].
  - left. simpl. now rewrite Hf, HA.
  - left. simpl. rewrite Hf, List.filter_app, HA by done. simpl.
    now rewrite Hf.
  - right. exists svc. rewrite EL. simpl.
    destruct H as [(_ & _ & ->) | (e & _ & _ & ->)]; simpl;
      rewrite Hf, !List.filter_app, HA by done; simpl;
      rewrite Hf by done; now rewrite app_nil_r.
Qed.

Lemma for_each_filter_bound {A} (f : event → bool) (k : nat)
    (body : A → M remote unit) xs :
  (∀ x h r, (List.length (List.filter f (body x h r).1.1) ≤ k)%nat) →
  ∀ h r,
    (List.length (List.filter f (for_each xs body h r).1.1) ≤ k * List.length xs)%nat.
Proof.
  intros Hbody. induction xs as [|x xs IH]; intros h r; simpl.
  - lia.
  - unfold bind. specialize (Hbody x h r).
    destruct (body x h r) as [[evs [[]|e]] r1]; simpl in *; [|lia].
    specialize (IH h r1).
    destruct (for_each xs body h r1) as [[evs' b] r2]; simpl in *.
    rewrite List.filter_app, length_app. lia.
Qed.

End Runs.

(** X4. Whatever the client library does, a run exits with code 0 or 1,
    and it exits 0 exactly when the completion line is the last thing it
    emitted. *)
Theorem run_over_exit_code {remote} (lib : Library remote) files h r :
  let '(evs, code, _) := run_over lib files h r in
  (code = 0 ∨ code = 1)
  ∧ (code = 0 ↔ last evs = Some (Stdout msg_done)).
Proof.
  pose proof (run_over_events lib files h r) as H.
  destruct (run_over lib files h r) as [[evs code] r'].
  destruct H as [(_ & -> & -> & _) | (_ & evsA & xA & EA & H)].
  { split; [now right|]. split; [lia|].
    intros E. vm_compute in E. discriminate E. }
  destruct H as [(e & -> & -> & _ & Hevs) | (svc & evsL & xL & _ & _ & H)].
  - split; [now right|]. split; [lia|].
    pose proof (authenticate_events lib h r) as HE. rewrite EA in HE.
    destruct Hevs as [-> | ->].
    + destruct HE as [_ [[-> _] | [[-> _] | [-> _]]]]; intros E;
        vm_compute in E; discriminate E.
    + change (Stdout msg_start :: evsA ++ [Traceback e])
        with ((Stdout msg_start :: evsA) ++ [Traceback e]).
      rewrite last_snoc. discriminate.
  - destruct H as [(_ & -> & ->) | (e & _ & -> & ->)].
    + split; [now left|]. now rewrite last_closing.
    + split; [now right|]. rewrite last_closing. split; [lia|discriminate].
Qed.

(** X5. Whatever the client library does, a run over [n] paths issues at
    most [2 * n] remote calls, of which at most [n] are writes: one list
    call and at most one create or update per path. *)
Theorem run_over_call_bound {remote} (lib : Library remote) files h r :
  (List.length (List.filter is_remote_call (run_over lib files h r).1.1)
   ≤ 2 * List.length files)%nat
  ∧ (List.length (List.filter is_write_call (run_over lib files h r).1.1)
     ≤ List.length files)%nat.
Proof.
  assert (∀ svc filepath h' r',
            (List.length (List.filter is_remote_call
                       (upload_file lib svc filepath h' r').1.1) ≤ 2)%nat
            ∧ (List.length (List.filter is_write_call
                         (upload_file lib svc filepath h' r').1.1) ≤ 1)%nat)
    as Htask.
  { intros svc filepath h' r'.
    destruct (upload_file_events lib svc filepath h' r')
      as [-> | [-> | [(file_id & tail & Ht & ->) | (tail & Ht & ->)]]];
      try (destruct Ht as [-> | ->]); simpl; lia. }
  split.
  - destruct (run_over_filter lib is_remote_call files h r) as [-> | [svc ->]];
      [done|simpl; lia|].
    apply (for_each_filter_bound is_remote_call 2).
    intros. apply Htask.
  - destruct (run_over_filter lib is_write_call files h r) as [-> | [svc ->]];
      [now intros []|simpl; lia|].
    rewrite <- (Nat.mul_1_l (List.length files)).
    apply (for_each_filter_bound is_write_call 1).
    intros. apply Htask.
Qed.

Lemma run_over_writes {remote} (lib : Library remote) files h r :
  Forall (λ ev, is_write_call ev = true →
                ∃ filepath,
                  filepath ∈ files ∧ is_Some (h_disk h !! filepath)
                  ∧ truthy (FOLDER_ID h) = true
                  ∧ write_of_task h filepath ev)
         (run_over lib files h r).1.1.
Proof.
  destruct (truthy (FOLDER_ID h)) eqn:T.
  2: { unfold run_over. rewrite main_over_no_folder by done.
       repeat constructor. discriminate. }
  apply run_over_Forall.
  - intros ev ->. discriminate.
  - intros svc.
    eapply Forall_impl;
      [apply (for_each_Forall_elem
                (λ filepath ev,
                   is_write_call ev = true →
                   is_Some (h_disk h !! filepath)
                   ∧ write_of_task h filepath ev));
       intros x r'; apply upload_file_writes|].
    simpl. intros ev (x & Hx & H) W. destruct (H W) as [D Hw].
    exists x. done.
Qed.

(** X6. Whatever the client library does, every create or update call of a
    run uploads one of the listed paths, and that path is on disk. *)
Theorem run_over_uploads_listed_files {remote} (lib : Library remote)
    files h r :
  Forall (λ ev, match written_path ev with
                | Some filepath =>
                    filepath ∈ files ∧ is_Some (h_disk h !! filepath)
                | None => True
                end)
         (run_over lib files h r).1.1.
Proof.
  eapply Forall_impl; [apply run_over_writes|]. simpl.
  intros [| | | | |rq|rq] H; try exact I.
  - destruct (H eq_refl) as (p & Hp & D & _ & X & _ & ->). done.
  - destruct (H eq_refl) as (p & Hp & D & _ & Hw). simpl in Hw. subst rq.
    done.
Qed.

(** X7. Whatever the client library does, a run never updates under an
    empty or absent identifier and never creates outside the configured
    folder: every update call targets a non-empty identifier and carries no
    metadata body, and every create call names as its only parent the
    folder identifier of the environment, which is then non-empty. *)
Theorem run_over_write_targets {remote} (lib : Library remote) files h r :
  Forall (λ ev, match ev with
                | FilesUpdate rq =>
                    ∃ X, X ≠ "" ∧ up_fileId rq = Some X ∧ up_body rq = None
                | FilesCreate rq =>
                    ∃ F, F ≠ "" ∧ FOLDER_ID h = Some F
                         ∧ cr_body rq !! "parents" = Some (PList [Some F])
                | _ => True
                end)
         (run_over lib files h r).1.1.
Proof.
  eapply Forall_impl; [apply run_over_writes|]. simpl.
  intros [| | | | |rq|rq] H; try exact I.
  - destruct (H eq_refl) as (p & _ & _ & _ & X & HX & ->). exists X. done.
  - destruct (H eq_refl) as (p & _ & _ & T & Hw). simpl in Hw. subst rq.
    destruct (FOLDER_ID h) as [F|] eqn:EF; [|done]. exists F.
    split; [intros ->; discriminate|]. split; [done|].
    unfold create_of. cbn [cr_body].
    now rewrite lookup_insert_ne, lookup_singleton_eq.
Qed.

(** ** Runs that complete *)

Section Completed.

Context {remote : Type} (lib : Library remote).

(** The events of a task that returns normally. *)
Lemma upload_file_ok_events svc filepath h r evs r' :
  upload_file lib svc filepath h r = (evs, Ok tt, r') →
  omap written_path evs = (if on_disk h filepath then [filepath] else [])
  ∧ List.filter is_list_call evs
    = (if on_disk h filepath
       then [FilesList (list_of (basename filepath) (FOLDER_ID h))]
       else []).
Proof.
  unfold on_disk. destruct (h_disk h !! filepath) as [content|] eqn:D.
  2: { rewrite upload_file_missing by done. intros [= <- _].
       rewrite bool_decide_eq_false_2; [done|]. now intros [? ?]. }
  rewrite bool_decide_eq_true_2 by eauto.
  rewrite upload_file_present, find_file_in_folder_unfold by eauto.
  destruct (files_list lib svc _ r) as [[x|results] r1]; [done|].
  destruct (id_of_first results) as [file_id|e]; [|done].
  destruct (open_for_reading (h_disk h) filepath) as [e|]; [done|].
  destruct (truthy file_id).
  - destruct (files_update lib svc _ _ r1) as [[x|?] r2]; [done|].
    now intros [= <- _].
  - destruct (files_create lib svc _ _ r1) as [[x|?] r2]; [done|].
    now intros [= <- _].
Qed.

Lemma for_each_ok_events svc files h : ∀ r evs r',
  for_each files (upload_file lib svc) h r = (evs, Ok tt, r') →
  omap written_path evs = List.filter (on_disk h) files
  ∧ List.filter is_list_call evs
    = (λ filepath, FilesList (list_of (basename filepath) (FOLDER_ID h)))
        <$> List.filter (on_disk h) files.
Proof.
  induction files as [|p rest IH]; intros r evs r'; simpl.
  { now intros [= <- _]. }
  unfold bind.
  destruct (upload_file lib svc p h r) as [[evs1 [[]|e]] r1] eqn:E1; [|done].
  destruct (for_each rest _ h r1) as [[evs2 [[]|e]] r2] eqn:E2; [|done].
  intros [= <- _].
  destruct (upload_file_ok_events _ _ _ _ _ _ E1) as [W1 L1].
  destruct (IH _ _ _ E2) as [W2 L2].
  rewrite omap_app, List.filter_app, W1, W2, L1, L2.
  now destruct (on_disk h p).
Qed.

End Completed.

(** X8. Whatever the client library does, a run that exits 0 has issued
    exactly one list call and exactly one create or update call for each
    listed path that is on disk, in the order of the list, and none for any
    other path. *)
Theorem run_over_exit_zero_covers_disk {remote} (lib : Library remote)
    files h r evs r' :
  run_over lib files h r = (evs, 0, r') →
  omap written_path evs = List.filter (on_disk h) files
  ∧ List.length (List.filter is_write_call evs)
    = List.length (List.filter (on_disk h) files)
  ∧ List.filter is_list_call evs
    = (λ filepath, FilesList (list_of (basename filepath) (FOLDER_ID h)))
        <$> List.filter (on_disk h) files.
Proof.
  intros E. pose proof (run_over_events lib files h r) as H.
  rewrite E in H.
  destruct H as [(_ & _ & [=] & _) | (_ & evsA & xA & EA & H)].
  destruct H as [(e & _ & [=] & _) | (svc & evsL & xL & -> & EL & H)].
  destruct H as [(-> & _ & ->) | (e & _ & [=] & _)].
  destruct (for_each_ok_events lib svc files h _ _ _ EL) as [W L].
  pose proof (authenticate_events lib h r) as HE. rewrite EA in HE.
  destruct HE as [_ [[_ [=]] | [[_ [? [=]]] | [-> _]]]].
  assert (∀ l, List.length (List.filter is_write_call l)
               = List.length (omap written_path l)) as Hcount.
  { induction l as [|[] l IHl]; simpl; auto. }
  rewrite Hcount. simpl.
  rewrite omap_app, List.filter_app, W, L. simpl.
  now rewrite !app_nil_r.
Qed.

Lemma run_over_exit_zero_covers_disk_witness :
  run_over drive_stub FILES_TO_UPLOAD host_both []
  = ((run_over drive_stub FILES_TO_UPLOAD host_both []).1.1, 0,
     (run_over drive_stub FILES_TO_UPLOAD host_both []).2)
  ∧ omap written_path (run_over drive_stub FILES_TO_UPLOAD host_both []).1.1
    = [scandata; obj_click_log].
Proof.
  split; [reflexivity|].
  apply (run_over_exit_zero_covers_disk drive_stub FILES_TO_UPLOAD host_both []
           (run_over drive_stub FILES_TO_UPLOAD host_both []).1.1
           (run_over drive_stub FILES_TO_UPLOAD host_both []).2).
  reflexivity.
Defined.

(** X9. When the folder identifier is set, the Authenticator succeeds and
    none of the listed paths is on disk (the empty list included), the run
    prints one skip line per path, in order, between the start line and the
    completion line, issues no remote call, leaves the remote store as the
    Authenticator left it, and exits 0. *)
Theorem run_over_nothing_on_disk {remote} (lib : Library remote)
    files h r evsA svc rA :
  truthy (FOLDER_ID h) = true →
  authenticate lib h r = (evsA, Ok svc, rA) →
  Forall (λ filepath, h_disk h !! filepath = None) files →
  run_over lib files h r
  = (Stdout msg_start :: evsA
       ++ ((λ filepath, Stdout (msg_skip filepath)) <$> files)
       ++ [Stdout msg_done],
     0, rA).
Proof.
  intros T EA Hmiss. unfold run_over. rewrite main_over_folder, EA by done.
  assert (for_each files (upload_file lib svc) h rA
          = ((λ filepath, Stdout (msg_skip filepath)) <$> files, Ok tt, rA))
    as ->; [|reflexivity].
  induction Hmiss as [|p rest D _ IH]; [reflexivity|].
  rewrite (for_each_cons_ok _ _ _ _ _ _ _ (upload_file_missing lib svc p h rA D)).
  now rewrite IH.
Qed.

Lemma run_over_nothing_on_disk_witness :
  truthy (FOLDER_ID host_empty) = true
  ∧ authenticate drive_stub host_empty []
    = ([LoadCredentials CREDENTIALS_FILE SCOPES; BuildService "drive" "v3"],
       Ok tt, [])
  ∧ Forall (λ filepath, h_disk host_empty !! filepath = None) FILES_TO_UPLOAD
  ∧ run_over drive_stub FILES_TO_UPLOAD host_empty []
    = (Stdout msg_start
         :: [LoadCredentials CREDENTIALS_FILE SCOPES; BuildService "drive" "v3"]
         ++ ((λ filepath, Stdout (msg_skip filepath)) <$> FILES_TO_UPLOAD)
         ++ [Stdout msg_done],
       0, []).
Proof.
  assert (Forall (λ filepath, h_disk host_empty !! filepath = None)
            FILES_TO_UPLOAD) as Hmiss by (repeat constructor).
  split; [reflexivity|]. split; [reflexivity|]. split; [exact Hmiss|].
  apply (run_over_nothing_on_disk drive_stub FILES_TO_UPLOAD host_empty []
           [LoadCredentials CREDENTIALS_FILE SCOPES; BuildService "drive" "v3"]
           tt []); [reflexivity|reflexivity|exact Hmiss].
Defined.

(** X10. Whatever the client library does, the events of a run split in
    two: first a part without any remote call, then a part without any
    credential load or service build.  Either the first part holds exactly
    one load of the credentials, from [credentials.json] with the one
    [drive.file] scope, followed by exactly one build of the [drive] [v3]
    service; or it holds no more than the load, and then the second part
    holds no remote call at all.  So every list, create or update call comes
    after a completed authentication, and nothing authenticates again. *)
Theorem run_over_authenticates_first {remote} (lib : Library remote)
    files h r :
  ∃ before after,
    (run_over lib files h r).1.1 = before ++ after
    ∧ List.filter is_remote_call before = []
    ∧ List.filter is_auth_call after = []
    ∧ (List.filter is_auth_call before
       = [LoadCredentials "credentials.json"
            ["https://www.googleapis.com/auth/drive.file"];
          BuildService "drive" "v3"]
       ∨ (List.filter is_remote_call after = []
          ∧ (List.filter is_auth_call before = []
             ∨ List.filter is_auth_call before
               = [LoadCredentials "credentials.json"
                    ["https://www.googleapis.com/auth/drive.file"]]))).
Proof.
  pose proof (run_over_events lib files h r) as H.
  destruct (run_over lib files h r) as [[evs code] r']. simpl.
  destruct H as [(_ & -> & _) | (_ & evsA & xA & EA & H)].
  { exists [Stdout msg_no_folder], []. repeat split; auto. }
  pose proof (authenticate_events lib h r) as HE. rewrite EA in HE.
  destruct H as [(e & -> & _ & _ & Hevs)
                | (svc & evsL & xL & -> & EL & H)].
  - assert (List.filter is_remote_call evsA = []
            ∧ (List.filter is_auth_call evsA = []
               ∨ List.filter is_auth_call evsA
                 = [LoadCredentials CREDENTIALS_FILE SCOPES]
               ∨ List.filter is_auth_call evsA
                 = [LoadCredentials CREDENTIALS_FILE SCOPES;
                    BuildService "drive" "v3"])) as [HR HA].
    { destruct HE as [_ [[-> _] | [[-> _] | [-> _]]]]; simpl; auto. }
    destruct Hevs as [-> | ->].
    + exists (Stdout msg_start :: evsA), []. rewrite app_nil_r. simpl.
      repeat split; auto. destruct HA as [HA | [HA | HA]]; auto.
    + exists (Stdout msg_start :: evsA), [Traceback e]. simpl.
      repeat split; auto. destruct HA as [HA | [HA | HA]]; auto.
  - destruct HE as [_ [[_ [=]] | [[_ [? [=]]] | [-> _]]]].
    assert (List.filter is_auth_call evsL = []) as HL.
    { pose proof (for_each_Forall (λ ev, is_auth_call ev = false)
                    (upload_file lib svc) files) as HF.
      assert (Forall (λ ev, is_auth_call ev = false) evsL) as Hno.
      { replace evsL with (for_each files (upload_file lib svc) h r).1.1
          by now rewrite EL.
        apply HF. intros x h' r0.
        destruct (upload_file_events lib svc x h' r0)
          as [-> | [-> | [(file_id & tail & Ht & ->) | (tail & Ht & ->)]]];
          try (destruct Ht as [-> | ->]); repeat constructor. }
      clear -Hno. induction Hno as [|ev l Hev _ IH]; [done|].
      simpl. now rewrite Hev. }
    destruct H as [(_ & _ & ->) | (e & _ & _ & ->)].
    + exists [Stdout msg_start; LoadCredentials CREDENTIALS_FILE SCOPES;
              BuildService "drive" "v3"], (evsL ++ [Stdout msg_done]).
      simpl. rewrite List.filter_app, HL. simpl. auto.
    + exists [Stdout msg_start; LoadCredentials CREDENTIALS_FILE SCOPES;
              BuildService "drive" "v3"], (evsL ++ [Traceback e]).
      simpl. rewrite List.filter_app, HL. simpl. auto.
Qed.

(** X11. When the folder identifier is set and the key file exists: if
    loading the credentials fails, the run stops there, with the traceback
    of that error and exit code 1, and the service is never built; if
    building the service fails, the run stops there likewise.  In both
    cases no file task starts and the remote store is untouched. *)
Theorem run_over_authentication_failure {remote} (lib : Library remote)
    files h r :
  truthy (FOLDER_ID h) = true →
  is_Some (h_disk h !! CREDENTIALS_FILE) →
  (∀ e,
     from_service_account_file lib CREDENTIALS_FILE SCOPES (h_disk h) = inl e →
     run_over lib files h r
     = ([Stdout msg_start; LoadCredentials CREDENTIALS_FILE SCOPES;
         Traceback (LibraryError e)], 1, r))
  ∧ (∀ creds e,
       from_service_account_file lib CREDENTIALS_FILE SCOPES (h_disk h)
       = inr creds →
       build lib "drive" "v3" creds = inl e →
       run_over lib files h r
       = ([Stdout msg_start; LoadCredentials CREDENTIALS_FILE SCOPES;
           BuildService "drive" "v3"; Traceback (LibraryError e)], 1, r)).
Proof.
  intros T K. split.
  - intros e E. unfold run_over.
    now rewrite main_over_folder, authenticate_present, E by done.
  - intros creds e E B. unfold run_over.
    now rewrite main_over_folder, authenticate_present, E, B by done.
Qed.

Lemma run_over_authentication_failure_witness :
  truthy (FOLDER_ID host_F1) = true
  ∧ is_Some (h_disk host_F1 !! CREDENTIALS_FILE)
  ∧ run_over rejecting_loader FILES_TO_UPLOAD host_F1 O
    = ([Stdout msg_start; LoadCredentials CREDENTIALS_FILE SCOPES;
        Traceback (LibraryError bad_key)], 1, O).
Proof.
  assert (is_Some (h_disk host_F1 !! CREDENTIALS_FILE)) as K
    by (eexists; reflexivity).
  split; [reflexivity|]. split; [exact K|].
  apply (proj1 (run_over_authentication_failure rejecting_loader
                  FILES_TO_UPLOAD host_F1 O eq_refl K) bad_key).
  reflexivity.
Defined.

(** X12. When the list response for a file on disk holds at least one
    object and the first has no ['id'] key, the lookup raises [KeyError],
    even if a later object has one: no create or update is issued for that
    file, the files after it are not processed, and the run ends with the
    traceback of the [KeyError] and exit code 1. *)
Theorem run_over_first_object_without_id {remote} (lib : Library remote)
    h r evsA svc rA filepath rest results r1 first others :
  truthy (FOLDER_ID h) = true →
  authenticate lib h r = (evsA, Ok svc, rA) →
  is_Some (h_disk h !! filepath) →
  files_list lib svc (list_of (basename filepath) (FOLDER_ID h)) rA
  = (inr results, r1) →
  results !! "files" = Some (first :: others) →
  first !! "id" = None →
  run_over lib (filepath :: rest) h r
  = (Stdout msg_start :: evsA
       ++ [Stdout (msg_processing filepath);
           FilesList (list_of (basename filepath) (FOLDER_ID h));
           Traceback (KeyError "id")],
     1, r1).
Proof.
  intros T EA D EL Hfiles Hid. unfold run_over.
  rewrite main_over_folder, EA by done.
  assert (upload_file lib svc filepath h rA
          = ([Stdout (msg_processing filepath);
              FilesList (list_of (basename filepath) (FOLDER_ID h))],
             Raise (KeyError "id"), r1)) as EU.
  { rewrite upload_file_present, find_file_in_folder_unfold, EL by done.
    unfold id_of_first. rewrite Hfiles. simpl. now rewrite Hid. }
  rewrite (for_each_cons_raise _ _ _ _ _ _ _ _ EU). simpl.
  now rewrite <- (assoc_L (++)).
Qed.

Lemma run_over_first_object_without_id_witness :
  run_over (canned response_no_id) (scandata :: [obj_click_log]) host_both O
  = (Stdout msg_start
       :: [LoadCredentials CREDENTIALS_FILE SCOPES; BuildService "drive" "v3"]
       ++ [Stdout (msg_processing scandata);
           FilesList (list_of (basename scandata) (FOLDER_ID host_both));
           Traceback (KeyError "id")],
     1, O).
Proof.
  apply (run_over_first_object_without_id (canned response_no_id)
           host_both O
           [LoadCredentials CREDENTIALS_FILE SCOPES; BuildService "drive" "v3"]
           tt O scandata [obj_click_log] response_no_id O
           {[ "name" := "scandata.csv" ]}
           [ {[ "id" := "X2"; "name" := "scandata.csv" ]} ]);
    try reflexivity.
  eexists. reflexivity.
Defined.

(** * Two runs in succession, whatever the order of list responses *)

Lemma plain_append_quote a b : plain (a +:+ String "'" b) = false.
Proof.
  induction a as [|c a IH]; [reflexivity|].
  rewrite append_cons. simpl. rewrite IH. apply andb_false_r.
Qed.

(** A literal read up to a quote-free remainder is the whole text before
    that remainder's quote. *)
Lemma read_literal_closed a tail l :
  plain tail = true →
  read_literal (a +:+ String "'" tail) = Some (l, tail) →
  plain a = true ∧ l = a.
Proof.
  intros Pt. revert l. induction a as [|c a IH]; intros l.
  - simpl. now intros [= <-].
  - rewrite append_cons. simpl. destruct (Ascii.eqb c "'") eqn:Ec.
    + intros [= _ E]. exfalso. rewrite <- E, plain_append_quote in Pt.
      discriminate.
    + destruct (read_literal (a +:+ String "'" tail)) as [[l' t']|] eqn:ER;
        [|discriminate].
      intros [= <- ->]. destruct (IH l' eq_refl) as [Pa ->].
      simpl. now split.
Qed.

(** The stand-in reads the filter of a quote-free name only if the folder
    identifier is quote-free too, and then as that name in that folder. *)
Lemma parse_query_inv filename folder x :
  plain filename = true →
  parse_query (query_of filename (Some folder)) = Some x →
  plain folder = true ∧ x = (filename, folder).
Proof.
  intros Pn. unfold parse_query, query_of, py_format.
  rewrite strip_prefix_append. cbn [mbind option_bind].
  rewrite read_literal_plain by done. cbn [mbind option_bind].
  rewrite strip_prefix_append. cbn [mbind option_bind].
  change "' in parents and trashed = false"
    with (String "'" " in parents and trashed = false").
  destruct (read_literal (folder +:+ String "'" _)) as [[l r4]|] eqn:ER;
    [|discriminate].
  cbn [mbind option_bind].
  destruct (String.eqb_spec r4 " in parents and trashed = false") as [-> | ?];
    [|discriminate].
  intros [= <-].
  now destruct (read_literal_closed
                  folder " in parents and trashed = false" l eq_refl ER)
    as [P ->].
Qed.

Lemma open_for_reading_None h filepath :
  open_for_reading (h_disk h) filepath = None → openable h filepath.
Proof.
  unfold open_for_reading, openable.
  destruct (h_disk h !! filepath) as [[content| |]|]; try discriminate.
  eauto.
Qed.

Lemma extends_refl st : extends st st.
Proof. exists []. now rewrite app_nil_r. Qed.

Lemma extends_same_meta (st st' : list remote_object) :
  obj_meta <$> st' = obj_meta <$> st → extends st st'.
Proof. intros E. exists []. now rewrite app_nil_r. Qed.

Lemma extends_trans st1 st2 st3 :
  extends st1 st2 → extends st2 st3 → extends st1 st3.
Proof.
  intros [e1 E1] [e2 E2]. exists (e1 ++ e2).
  now rewrite E2, E1, (assoc_L (++)).
Qed.

Lemma valid_ids_same_meta (st st' : list remote_object) :
  obj_meta <$> st' = obj_meta <$> st → valid_ids st → valid_ids st'.
Proof.
  intros E V. unfold valid_ids in *.
  assert (∀ l, Forall (λ o, obj_id o ≠ "") l
               ↔ Forall (λ m : string * string * list string * bool,
                           m.1.1.1 ≠ "") (obj_meta <$> l)) as Hm.
  { intros l. now rewrite Forall_fmap. }
  apply Hm. rewrite E. now apply Hm.
Qed.

Lemma fresh_id_nonempty st : fresh_id st ≠ "".
Proof. unfold fresh_id. simpl. discriminate. Qed.

(** Whether an object with given metadata is in a store is a matter of the
    metadata of the store. *)
Lemma settled_extends name folder st st' :
  extends st st' → settled name folder st → settled name folder st'.
Proof.
  intros [ext E] (o & Ho & Mo).
  assert (obj_meta o ∈ obj_meta <$> st') as Hin.
  { rewrite E. apply elem_of_app. left. now apply list_elem_of_fmap_2. }
  apply list_elem_of_fmap in Hin as (o' & Eo & Ho').
  exists o'. split; [done|].
  change (meta_matches name folder (obj_meta o') = true).
  rewrite <- Eo. exact Mo.
Qed.

Lemma same_meta_object (st st' : list remote_object) o :
  obj_meta <$> st' = obj_meta <$> st → o ∈ st' →
  ∃ o', o' ∈ st ∧ obj_meta o' = obj_meta o.
Proof.
  intros E Ho.
  assert (obj_meta o ∈ obj_meta <$> st) as Hin.
  { rewrite <- E. now apply list_elem_of_fmap_2. }
  apply list_elem_of_fmap in Hin as (o' & Eo & Ho'). eauto.
Qed.

Lemma has_id_existsb o st :
  o ∈ st → existsb (has_id (obj_id o)) st = true.
Proof.
  intros Ho. apply existsb_exists. exists o. split.
  - now apply list_elem_of_In.
  - unfold has_id. apply String.eqb_refl.
Qed.

Lemma filter_elem_of {A} (f : A → bool) l x :
  x ∈ List.filter f l ↔ x ∈ l ∧ f x = true.
Proof. rewrite !list_elem_of_In. apply List.filter_In. Qed.

Section Ranked.

Context (rank : list remote_object → list remote_object).
Hypothesis Hrank : ∀ l, rank l ≡ₚ l.
Context (h : host) (folder : string).
Hypothesis Hfolder : FOLDER_ID h = Some folder.

Lemma ranked_head l :
  l ≠ [] → ∃ o, head (rank l) = Some o ∧ o ∈ l.
Proof.
  intros Hne. destruct (rank l) as [|o tl] eqn:E.
  - exfalso. apply Hne. symmetry. apply Permutation_nil_l.
    rewrite <- E. apply Hrank.
  - exists o. split; [done|]. rewrite <- (Hrank l), E. left.
Qed.

Lemma ranked_nil : rank [] = [].
Proof. apply Permutation_nil_r. apply Hrank. Qed.

Lemma find_file_in_folder_ranked svc filename st :
  find_file_in_folder (drive_stub_ranked rank) svc filename (Some folder) h st
  = ([FilesList (list_of filename (Some folder))],
     match parse_query (query_of filename (Some folder)) with
     | Some (name, f) =>
         Ok (obj_id <$> head (rank (List.filter (matches name f) st)))
     | None => Raise (LibraryError bad_request)
     end,
     st).
Proof.
  rewrite find_file_in_folder_unfold. simpl. unfold stub_list_ranked. simpl.
  destruct (parse_query _) as [[name f]|]; [|done].
  now rewrite id_of_first_resources.
Qed.

(** A task over a readable file whose name some object bears: an update of
    such an object. *)
Lemma upload_file_ranked_update filepath st :
  plain (basename filepath) = true → plain folder = true →
  valid_ids st → openable h filepath →
  settled (basename filepath) folder st →
  ∃ o,
    o ∈ st ∧ matches (basename filepath) folder o = true
    ∧ obj_id o ≠ ""
    ∧ upload_file (drive_stub_ranked rank) tt filepath h st
      = ([Stdout (msg_processing filepath);
          FilesList (list_of (basename filepath) (Some folder));
          Stdout (msg_found (Some (obj_id o)));
          FilesUpdate (update_of filepath (Some (obj_id o)));
          Stdout (msg_updated filepath)],
         Ok tt,
         (stub_update (update_of filepath (Some (obj_id o))) (h_disk h) st).2).
Proof.
  intros Pn Pf V D (o0 & Ho0 & Mo0).
  destruct (ranked_head (List.filter (matches (basename filepath) folder) st))
    as (o & Hd & Ho).
  { intros E. assert (o0 ∈ List.filter (matches (basename filepath) folder) st)
      as Hin by now apply filter_elem_of.
    rewrite E in Hin. now apply elem_of_nil in Hin. }
  apply filter_elem_of in Ho as [Ho Mo].
  assert (obj_id o ≠ "") as Hid.
  { unfold valid_ids in V. rewrite Forall_forall in V. now apply V. }
  exists o. split; [done|]. split; [done|]. split; [done|].
  rewrite upload_file_present by now apply openable_is_Some.
  rewrite Hfolder, find_file_in_folder_ranked, parse_query_plain, Hd by done.
  rewrite open_for_reading_openable by done. simpl.
  destruct (String.eqb_spec (obj_id o) "") as [?|_]; [done|]. simpl.
  destruct D as [content D].
  unfold stub_update. simpl. now rewrite D, (has_id_existsb o st Ho).
Qed.

(** A task over a readable file whose name no object bears: a create. *)
Lemma upload_file_ranked_create filepath st content :
  plain (basename filepath) = true → plain folder = true →
  h_disk h !! filepath = Some (RegularFile content) →
  List.filter (matches (basename filepath) folder) st = [] →
  upload_file (drive_stub_ranked rank) tt filepath h st
  = ([Stdout (msg_processing filepath);
      FilesList (list_of (basename filepath) (Some folder));
      Stdout msg_creating;
      FilesCreate (create_of filepath (Some folder));
      Stdout (msg_created filepath)],
     Ok tt,
     st ++ [created_object filepath folder content st]).
Proof.
  intros Pn Pf D E.
  rewrite upload_file_present by eauto.
  rewrite Hfolder, find_file_in_folder_ranked, parse_query_plain, E by done.
  rewrite ranked_nil.
  rewrite open_for_reading_openable by (eexists; eauto). simpl.
  unfold stub_create, create_of. simpl.
  rewrite lookup_insert_eq. unfold parents_of.
  rewrite lookup_insert_ne, lookup_singleton_eq by done. simpl.
  now rewrite D.
Qed.

Lemma created_object_matches filepath content st :
  matches (basename filepath) folder
    (created_object filepath folder content st) = true.
Proof.
  unfold matches, created_object. simpl.
  rewrite String.eqb_refl, bool_decide_eq_true_2; [done|].
  apply list_elem_of_singleton. reflexivity.
Qed.

(** What a task that returned normally tells: the file could be opened, the
    folder identifier has no quote, and afterwards some object bears the
    name. *)
Lemma upload_file_ranked_ok filepath st evs st' :
  plain (basename filepath) = true → valid_ids st →
  is_Some (h_disk h !! filepath) →
  upload_file (drive_stub_ranked rank) tt filepath h st = (evs, Ok tt, st') →
  openable h filepath ∧ plain folder = true
  ∧ valid_ids st' ∧ extends st st' ∧ settled (basename filepath) folder st'.
Proof.
  intros Pn V D E.
  assert (openable h filepath ∧ plain folder = true) as [O Pf].
  { rewrite upload_file_present, Hfolder, find_file_in_folder_ranked in E
      by done.
    destruct (parse_query _) as [x|] eqn:EP; [|discriminate].
    destruct (parse_query_inv _ _ _ Pn EP) as [Pf ->].
    destruct (open_for_reading (h_disk h) filepath) eqn:EO; [discriminate|].
    split; [now apply open_for_reading_None|done]. }
  split; [done|]. split; [done|].
  destruct (List.filter (matches (basename filepath) folder) st)
    as [|o0 tl] eqn:EF.
  - destruct O as [content O].
    rewrite (upload_file_ranked_create _ _ content Pn Pf O EF) in E.
    injection E as _ <-. split; [|split].
    + apply Forall_app. split; [done|].
      apply Forall_singleton. apply fresh_id_nonempty.
    + eexists. apply fmap_app.
    + eexists. split; [|apply created_object_matches].
      apply elem_of_app. right. left.
  - assert (settled (basename filepath) folder st) as S.
    { exists o0. apply filter_elem_of. rewrite EF. left. }
    destruct (upload_file_ranked_update _ _ Pn Pf V O S)
      as (o & Ho & Mo & Hid & E').
    rewrite E' in E. injection E as _ <-.
    pose proof (stub_update_frame (update_of filepath (Some (obj_id o)))
                  (h_disk h) st (obj_id o) eq_refl eq_refl) as [Hm _].
    split; [by apply (valid_ids_same_meta st)|].
    split; [by apply extends_same_meta|].
    eapply settled_extends; [by apply extends_same_meta|done].
Qed.

(** The loop of a run that returned normally: every listed file on disk
    could be opened, and afterwards some object bears its name. *)
Lemma for_each_ranked_ok files : ∀ st evs st',
  Forall (λ filepath, plain (basename filepath) = true) files →
  valid_ids st →
  for_each files (upload_file (drive_stub_ranked rank) tt) h st
  = (evs, Ok tt, st') →
  valid_ids st' ∧ extends st st'
  ∧ ∀ filepath, filepath ∈ files → is_Some (h_disk h !! filepath) →
      openable h filepath ∧ plain folder = true
      ∧ settled (basename filepath) folder st'.
Proof.
  induction files as [|p rest IH]; intros st evs st' HP V; simpl.
  { intros [= _ <-]. split; [done|]. split; [apply extends_refl|].
    now intros q ?%elem_of_nil. }
  apply Forall_cons in HP as [Pp HP]. unfold bind.
  destruct (upload_file (drive_stub_ranked rank) tt p h st)
    as [[evs1 [[]|e]] st1] eqn:E1; [|discriminate].
  destruct (for_each rest (upload_file (drive_stub_ranked rank) tt) h st1)
    as [[evs2 [[]|e]] st2] eqn:E2; [|discriminate].
  intros [= _ <-].
  assert (valid_ids st1 ∧ extends st st1
          ∧ (is_Some (h_disk h !! p) →
             openable h p ∧ plain folder = true
             ∧ settled (basename p) folder st1)) as (V1 & X1 & S1).
  { destruct (h_disk h !! p) as [entry|] eqn:D.
    - destruct (upload_file_ranked_ok p st evs1 st1 Pp V) as (?&?&?&?&?);
        [by rewrite D|done|]. done.
    - rewrite upload_file_missing in E1 by done. injection E1 as _ <-.
      split; [done|]. split; [apply extends_refl|]. now intros [? ?]. }
  destruct (IH st1 evs2 st2 HP V1 E2) as (V2 & X2 & S2).
  split; [done|]. split; [by eapply extends_trans|].
  intros q [->|Hq]%elem_of_cons Dq; [|by apply S2].
  destruct (S1 Dq) as (O & Pf & S). split; [done|]. split; [done|].
  by eapply settled_extends.
Qed.

(** The loop of a run over a store in which some object bears the name of
    every listed file on disk: it returns normally, its write calls are one
    update per such file, in order, each of an object bearing the name, and
    it changes no identifier, name, parent or trashed flag. *)
Lemma for_each_ranked_updates files : ∀ st,
  Forall (λ filepath, plain (basename filepath) = true) files →
  valid_ids st →
  (∀ filepath, filepath ∈ files → is_Some (h_disk h !! filepath) →
     openable h filepath ∧ plain folder = true
     ∧ settled (basename filepath) folder st) →
  ∃ evs st',
    for_each files (upload_file (drive_stub_ranked rank) tt) h st
    = (evs, Ok tt, st')
    ∧ obj_meta <$> st' = obj_meta <$> st
    ∧ Forall2 (updates_object_of st folder)
        (List.filter is_write_call evs) (List.filter (on_disk h) files).
Proof.
  induction files as [|p rest IH]; intros st HP V S.
  { exists [], st. repeat split. constructor. }
  apply Forall_cons in HP as [Pp HP].
  destruct (h_disk h !! p) as [entry|] eqn:D.
  - assert (on_disk h p = true) as Ed.
    { apply bool_decide_eq_true_2. rewrite D. eauto. }
    simpl. rewrite Ed.
    destruct (S p) as (O & Pf & Sp); [left|eauto|].
    destruct (upload_file_ranked_update p st Pp Pf V O Sp)
      as (o & Ho & Mo & Hid & E1).
    pose proof (stub_update_frame (update_of p (Some (obj_id o)))
                  (h_disk h) st (obj_id o) eq_refl eq_refl) as [Hm _].
    set (st1 := (stub_update (update_of p (Some (obj_id o))) (h_disk h) st).2)
      in *.
    destruct (IH st1 HP (valid_ids_same_meta _ _ Hm V))
      as (evs & st' & E2 & Hm' & W).
    { intros q Hq Dq. destruct (S q) as (? & ? & ?); [by right|done|].
      split; [done|]. split; [done|].
      eapply settled_extends; [by apply extends_same_meta|done]. }
    eexists _, st'. unfold bind. rewrite E1, E2.
    split; [reflexivity|]. split; [congruence|].
    simpl. constructor.
    + apply matches_spec in Mo as (? & ? & ?). exists (obj_id o), o. done.
    + eapply Forall2_impl; [exact W|].
      intros ev q (X & o' & -> & HX & Ho' & <- & ? & ? & ?).
      destruct (same_meta_object st st1 o' Hm Ho') as (o'' & Ho'' & Em).
      injection Em as Ei En Ep Et.
      exists (obj_id o'), o''. repeat split; try done; congruence.
  - assert (on_disk h p = false) as Ed.
    { apply bool_decide_eq_false_2. rewrite D. now intros [? ?]. }
    simpl. rewrite Ed.
    destruct (IH st HP V) as (evs & st' & E2 & Hm' & W).
    { intros q Hq Dq. apply S; [by right|done]. }
    eexists _, st'. unfold bind.
    rewrite upload_file_missing, E2 by done.
    split; [reflexivity|]. split; [done|]. exact W.
Qed.

End Ranked.

(** Authentication against the stand-in: it reads the key file and nothing
    of the remote store. *)
Lemma authenticate_ranked rank h st :
  authenticate (drive_stub_ranked rank) h st =
    match h_disk h !! CREDENTIALS_FILE with
    | None => ([Stdout msg_no_credentials], Raise (SystemExit 1), st)
    | Some (RegularFile key) =>
        ([LoadCredentials CREDENTIALS_FILE SCOPES; BuildService "drive" "v3"],
         Ok tt, st)
    | Some _ =>
        ([LoadCredentials CREDENTIALS_FILE SCOPES],
         Raise (LibraryError (ExternalError "OSError" CREDENTIALS_FILE)), st)
    end.
Proof.
  destruct (h_disk h !! CREDENTIALS_FILE) as [entry|] eqn:D.
  - rewrite authenticate_present by eauto. simpl.
    rewrite D. now destruct entry.
  - now apply authenticate_missing.
Qed.

Lemma FILES_TO_UPLOAD_plain :
  Forall (λ filepath, plain (basename filepath) = true) FILES_TO_UPLOAD.
Proof. repeat constructor. Qed.

(** C7 (as amended). Over the stand-in for the remote store, whatever the
    order in which it lists the matching objects: if the identifiers of the
    store are non-empty strings and a first run exits 0, then the folder
    identifier is set and a second run from the store the first run left
    exits 0 too; its write calls are exactly one update (and no create) per
    listed file that exists on disk, in order, each targeting the
    identifier of an object of that store that bears the file's base name,
    sits in the folder and is not trashed; and the identifier, name,
    parents and trashed flag of every object are the same after the second
    run as after the first. *)
Theorem sync_twice_updates rank h st0 evs1 st1 :
  (∀ l, rank l ≡ₚ l) →
  valid_ids st0 →
  run_script (drive_stub_ranked rank) h st0 = (evs1, 0, st1) →
  ∃ folder evs2 st2,
    FOLDER_ID h = Some folder
    ∧ run_script (drive_stub_ranked rank) h st1 = (evs2, 0, st2)
    ∧ Forall2
        (λ ev filepath,
           ∃ X o,
             ev = FilesUpdate {| up_fileId := Some X;
                                 up_body := None;
                                 up_media_body := media_of filepath;
                                 up_fields := "id" |}
             ∧ X ≠ ""
             ∧ o ∈ st1 ∧ obj_id o = X
             ∧ obj_name o = basename filepath
             ∧ folder ∈ obj_parents o
             ∧ obj_trashed o = false)
        (List.filter is_write_call evs2)
        (List.filter (on_disk h) FILES_TO_UPLOAD)
    ∧ obj_meta <$> st2 = obj_meta <$> st1.
Proof.
  intros Hrank V E. unfold run_script, main in *.
  destruct (truthy (FOLDER_ID h)) eqn:ET.
  2: { rewrite main_over_no_folder in E by done. discriminate. }
  destruct (FOLDER_ID h) as [folder|] eqn:EF; [|discriminate].
  assert (truthy (FOLDER_ID h) = true) as ET' by now rewrite EF.
  rewrite main_over_folder in E |- * by done.
  rewrite authenticate_ranked in E |- *.
  destruct (h_disk h !! CREDENTIALS_FILE) as [[key| |]|]; try discriminate.
  destruct (for_each FILES_TO_UPLOAD
              (upload_file (drive_stub_ranked rank) tt) h st0)
    as [[evs' [[]|e]] st'] eqn:EL.
  2: { exfalso.
       pose proof (for_each_raises
                     (λ e, e = KeyError "id" ∨ ∃ x, e = LibraryError x)
                     (upload_file (drive_stub_ranked rank) tt) FILES_TO_UPLOAD
                     (upload_file_raises (drive_stub_ranked rank) tt)
                     h st0 evs' e st' EL) as [-> | [x ->]];
         discriminate. }
  injection E as <- <-.
  destruct (for_each_ranked_ok rank Hrank h folder EF FILES_TO_UPLOAD
              st0 evs' st' FILES_TO_UPLOAD_plain V EL) as (V1 & _ & S).
  destruct (for_each_ranked_updates rank Hrank h folder EF FILES_TO_UPLOAD
              st' FILES_TO_UPLOAD_plain V1 S) as (evs & st2 & E2 & Hm & W).
  exists folder. eexists _, st2. rewrite E2.
  split; [done|]. split; [reflexivity|]. split; [|done].
  change (Forall2 (updates_object_of st' folder)
            (List.filter is_write_call (evs ++ [Stdout msg_done]))
            (List.filter (on_disk h) FILES_TO_UPLOAD)).
  rewrite List.filter_app. simpl. rewrite app_nil_r. exact W.
Qed.

Lemma sync_twice_updates_witness :
  (∀ l : list remote_object, reverse l ≡ₚ l)
  ∧ valid_ids []
  ∧ run_script (drive_stub_ranked reverse) host_F1 []
    = ([Stdout msg_start;
        LoadCredentials CREDENTIALS_FILE SCOPES;
        BuildService "drive" "v3";
        Stdout (msg_processing scandata);
        FilesList (list_of "scandata.csv" (Some "F1"));
        Stdout msg_creating;
        FilesCreate (create_of scandata (Some "F1"));
        Stdout (msg_created scandata);
        Stdout (msg_skip obj_click_log);
        Stdout msg_done],
       0,
       [created_object scandata "F1" "t,v" []])
  ∧ ∃ folder evs2 st2,
      FOLDER_ID host_F1 = Some folder
      ∧ run_script (drive_stub_ranked reverse) host_F1
          [created_object scandata "F1" "t,v" []]
        = (evs2, 0, st2)
      ∧ Forall2
          (λ ev filepath,
             ∃ X o,
               ev = FilesUpdate {| up_fileId := Some X;
                                   up_body := None;
                                   up_media_body := media_of filepath;
                                   up_fields := "id" |}
               ∧ X ≠ ""
               ∧ o ∈ [created_object scandata "F1" "t,v" []]
               ∧ obj_id o = X
               ∧ obj_name o = basename filepath
               ∧ folder ∈ obj_parents o
               ∧ obj_trashed o = false)
          (List.filter is_write_call evs2)
          (List.filter (on_disk host_F1) FILES_TO_UPLOAD)
      ∧ obj_meta <$> st2
        = obj_meta <$> [created_object scandata "F1" "t,v" []].
Proof.
  assert (∀ l : list remote_object, reverse l ≡ₚ l) as P
    by apply reverse_Permutation.
  assert (valid_ids []) as V by constructor.
  assert (run_script (drive_stub_ranked reverse) host_F1 []
          = ([Stdout msg_start;
              LoadCredentials CREDENTIALS_FILE SCOPES;
              BuildService "drive" "v3";
              Stdout (msg_processing scandata);
              FilesList (list_of "scandata.csv" (Some "F1"));
              Stdout msg_creating;
              FilesCreate (create_of scandata (Some "F1"));
              Stdout (msg_created scandata);
              Stdout (msg_skip obj_click_log);
              Stdout msg_done],
             0,
             [created_object scandata "F1" "t,v" []])) as E
    by (vm_compute; reflexivity).
  split; [exact P|]. split; [exact V|]. split; [exact E|].
  exact (sync_twice_updates reverse host_F1 [] _ _ P V E).
Defined.

(** C7, the claim as first stated fails in two ways.  First, the object a
    run updates follows the order of the list response, which the remote
    chooses: on a remote that lists the objects written last after the
    others, over a folder with two objects named [scandata.csv], both runs
    exit 0, the first run updates the object [first], the second run the
    object [second], and the Locator finds [second] after the first run and
    [first] after the second.  Second, a local file that exists but cannot
    be opened gets no update: with [scandata.csv] on disk without read
    permission, both runs exit 1 and the second run issues no write. *)
Lemma sync_twice_not_always_same_update :
  (let rank := holding_last "t,v" in
   let run1 := run_script (drive_stub_ranked rank) host_F1 store_sample in
   let run2 := run_script (drive_stub_ranked rank) host_F1 run1.2 in
   (∀ l, rank l ≡ₚ l)
   ∧ valid_ids store_sample
   ∧ run1.1.2 = 0 ∧ run2.1.2 = 0
   ∧ List.filter is_write_call run1.1.1
     = [FilesUpdate (update_of scandata (Some "first"))]
   ∧ List.filter is_write_call run2.1.1
     = [FilesUpdate (update_of scandata (Some "second"))]
   ∧ (find_file_in_folder (drive_stub_ranked rank) tt "scandata.csv"
        (Some "F1") host_F1 run1.2).1.2 = Ok (Some "second")
   ∧ (find_file_in_folder (drive_stub_ranked rank) tt "scandata.csv"
        (Some "F1") host_F1 run2.2).1.2 = Ok (Some "first"))
  ∧ (let run1 := run_script drive_stub host_unreadable [] in
     let run2 := run_script drive_stub host_unreadable run1.2 in
     List.filter (on_disk host_unreadable) FILES_TO_UPLOAD = [scandata]
     ∧ run1.1.2 = 1 ∧ run2.1.2 = 1
     ∧ List.filter is_write_call run2.1.1 = []).
Proof.
  split.
  - split.
    { intros l. unfold holding_last.
      induction l as [|o l IH]; [done|]. simpl.
      destruct (String.eqb (obj_content o) "t,v"); simpl.
      - rewrite <- Permutation_middle. now constructor.
      - now constructor. }
    split.
    { repeat constructor; discriminate. }
    repeat split; vm_compute; reflexivity.
  - repeat split; vm_compute; reflexivity.
Qed.
